(** * The retrieval pipeline of the LMS chatbot (app/services/rag.py)

    A shallow embedding of [RAGService]: the chunker, the embedding client,
    the search over the vector index, the ingestion pipeline and the answer
    pipeline, followed by the properties the specification states about
    them. *)

From Stdlib Require Import ZArith List Bool String Ascii Lia Floats DecimalString.
Import ListNotations.
Open Scope Z_scope.

(** ** Python strings

    A Python [str] is a sequence of Unicode code points: a list of [N].
    Indices are Python ints, so [Z], with the slice conventions of the
    language written out (a negative index counts from the end, an index
    out of range is clamped). *)
Module PyStr.

Definition char := N.
Definition str := list char.

(** A string literal of the source, as code points. *)
Definition lit (s : string) : str :=
  List.map N_of_ascii (list_ascii_of_string s).

(** [len(text)] *)
Definition len (t : str) : Z := Z.of_nat (List.length t).

(** The index adjustment shared by [text[a:b]] and [text.rfind(c, a, b)]. *)
Definition adjust (n i : Z) : Z :=
  let i := if i <? 0 then i + n else i in
  if i <? 0 then 0 else if n <? i then n else i.

(** [text[a:b]] *)
Definition slice (t : str) (a b : Z) : str :=
  let a' := adjust (len t) a in
  let b' := adjust (len t) b in
  firstn (Z.to_nat (b' - a')) (skipn (Z.to_nat a') t).

(** The last position of [c] in [l], the head of [l] being position [i];
    [acc] when there is none. *)
Fixpoint rindex (c : char) (l : str) (i acc : Z) : Z :=
  match l with
  | [] => acc
  | x :: r => rindex c r (i + 1) (if N.eqb x c then i else acc)
  end.

(** [text.rfind(c, a, b)] for a one-character [c]: the highest index of
    [c] within [text[a:b]], or [-1]. *)
Definition rfind (t : str) (c : char) (a b : Z) : Z :=
  let a' := adjust (len t) a in
  let b' := adjust (len t) b in
  if b' - a' <? 1 then -1 else rindex c (slice t a b) a' (-1).

(** [c.isspace()]: the code points Python treats as whitespace. *)
Definition is_space (c : char) : bool :=
  let in_range lo hi := (N.leb lo c && N.leb c hi)%bool in
  (in_range 9 13 || in_range 28 32 || N.eqb c 133 || N.eqb c 160
   || N.eqb c 5760 || in_range 8192 8202 || in_range 8232 8233
   || N.eqb c 8239 || N.eqb c 8287 || N.eqb c 12288)%N%bool.

(** [text.lstrip()] *)
Fixpoint lstrip (t : str) : str :=
  match t with
  | c :: r => if is_space c then lstrip r else t
  | [] => []
  end.

(** [text.rstrip()] *)
Definition rstrip (t : str) : str := rev (lstrip (rev t)).

(** [text.strip()] *)
Definition strip (t : str) : str := rstrip (lstrip t).

(** The truth value of a string: [if chunk:] *)
Definition truthy (t : str) : bool :=
  match t with [] => false | _ :: _ => true end.

Definition dot : char := 46%N.
Definition space : char := 32%N.

End PyStr.

(** ** The chunker: [RAGService.chunk_text] *)
Module Chunker.
Import PyStr.

(** Lines 145-157: the end of the chunk that starts at [start]. The
    prospective end [start + chunk_size] is moved back to a sentence end
    or to a space when one lies past the chunk's midpoint. *)
Definition chunk_end (text : str) (chunk_size start : Z) : Z :=
  let e := start + chunk_size in
  if e <? len text then
    let sentence_end := rfind text dot start e in
    if (negb (sentence_end =? -1) && (start + chunk_size / 2 <? sentence_end))%bool
    then sentence_end + 1
    else
      let sp := rfind text space start e in
      if (negb (sp =? -1) && (start + chunk_size / 2 <? sp))%bool
      then sp
      else e
  else e.

(** Lines 144-166: the [while] loop. Each unit of [fuel] pays for one
    iteration; [None] is a loop that has not finished within [fuel]
    iterations. *)
Fixpoint chunk_loop (fuel : nat) (text : str) (chunk_size overlap start : Z)
    (chunks : list str) : option (list str) :=
  match fuel with
  | O => None
  | S fuel' =>
      if start <? len text then
        let e := chunk_end text chunk_size start in
        let chunk := strip (slice text start e) in
        let chunks' := if truthy chunk then chunks ++ [chunk] else chunks in
        let start' := e - overlap in
        if len text <=? start' then Some chunks'
        else chunk_loop fuel' text chunk_size overlap start' chunks'
      else Some chunks
  end.

(** [chunk_text(text, chunk_size, overlap)] *)
Definition chunk_text (fuel : nat) (text : str) (chunk_size overlap : Z)
  : option (list str) :=
  if len text <=? chunk_size then Some [text]
  else chunk_loop fuel text chunk_size overlap 0 [].

Definition default_chunk_size : Z := 1000.
Definition default_overlap : Z := 200.

End Chunker.

(** ** The spans the chunker visits *)
Module ChunkerSpans.
Import PyStr Chunker.

(** The [(start, end)] pairs of the loop's iterations, in order: the loop
    of [chunk_loop] without the slicing. *)
Fixpoint chunk_spans (fuel : nat) (text : str) (chunk_size overlap start : Z)
  : option (list (Z * Z)) :=
  match fuel with
  | O => None
  | S fuel' =>
      if start <? len text then
        let e := chunk_end text chunk_size start in
        if len text <=? e - overlap then Some [(start, e)]
        else option_map (cons (start, e))
               (chunk_spans fuel' text chunk_size overlap (e - overlap))
      else Some []
  end.

(** What the loop appends for one span: the trimmed slice, when it is not
    empty. *)
Definition span_chunks (text : str) (spans : list (Z * Z)) : list str :=
  filter truthy (List.map (fun se => strip (slice text (fst se) (snd se))) spans).

(** The part of each span that lies after the previous span's end. *)
Fixpoint novel (text : str) (prev : Z) (spans : list (Z * Z)) : list str :=
  match spans with
  | [] => []
  | (_, e) :: r => slice text prev e :: novel text e r
  end.

(** Each span starts at or before the previous span's end: no position is
    skipped between two consecutive spans. *)
Fixpoint chained (prev : Z) (spans : list (Z * Z)) : Prop :=
  match spans with
  | [] => True
  | (s, e) :: r => s <= prev /\ prev <= e /\ chained e r
  end.

(** The spans of the loop's iterations from [start] on, read off lines
    144-166: an iteration runs while [start] is inside the text; its span
    ends where [chunk_end] says; the next iteration starts [overlap]
    before that end, and there is none once that start is at or past the
    end of the text. A start is never negative. *)
Fixpoint iterations (text : str) (chunk_size overlap start : Z)
    (spans : list (Z * Z)) : Prop :=
  match spans with
  | [] => False
  | (s, e) :: rest =>
      s = start /\ 0 <= s < len text /\ e = chunk_end text chunk_size s /\
      match rest with
      | [] => len text <= e - overlap
      | _ :: _ => e - overlap < len text /\
                  iterations text chunk_size overlap (e - overlap) rest
      end
  end.

(** The coverage the specification asks of the returned chunks: the text
    is the concatenation of one span per chunk, each span being the part
    of its chunk that the previous chunks did not hold already, that is a
    suffix of the chunk. *)
Definition is_suffix (s c : str) : Prop := exists p, c = p ++ s.

Definition covers (chunks : list str) (text : str) : Prop :=
  exists spans, Forall2 is_suffix spans chunks /\ List.concat spans = text.

End ChunkerSpans.

(** ** Exceptions, state and the calls to the outside

    The service talks to a PDF reader, an embedding endpoint, a language
    model, a vector index and a relational session. A computation runs on
    a state (the index handle, the session, and the trace of the outside
    calls made so far) and either returns or raises; what it did to the
    state before raising stays done. *)
Module Effects.
Import PyStr.

(** The outcome of a call that may raise: the exception is kept as the
    text [str(e)]. *)
Inductive Exc (A : Type) : Type :=
| Ok (a : A)
| Raise (msg : str).
Arguments Ok {A} a.
Arguments Raise {A} msg.

Definition vector := list float.

(** [str(n)] for an int. *)
Definition str_of_int (n : Z) : str := lit (NilZero.string_of_int (Z.to_int n)).

(** The metadata stored with a vector (lines 233-239). *)
Record Metadata := {
  md_text : str;
  md_filename : str;
  md_user_id : Z;
  md_chunk_index : Z;
  md_upload_date : str
}.

(** An entry of the vector index (lines 230-240). *)
Record IndexEntry := {
  ie_id : str;
  ie_values : vector;
  ie_metadata : Metadata
}.

(** A match of a query: an entry's metadata with its similarity score. *)
Record Match := {
  m_id : str;
  m_score : float;
  m_metadata : Metadata
}.

(** The metadata filter of a query. The source uses one:
    [{"user_id": {"$eq": user_id}}]. *)
Inductive Filter := UserIdEq (user_id : Z).

(** The vector index behind [self.index]: its entries, and whether the
    service answers ([ix_error] is the error its calls raise when it does
    not). *)
Record VectorIndex := {
  ix_entries : list IndexEntry;
  ix_error : option str
}.

(** A row of the [CourseMaterial] table (lines 254-266). *)
Record CourseMaterial := {
  cm_id : Z;
  cm_course_id : Z;
  cm_filename : str;
  cm_original_filename : str;
  cm_file_path : str;
  cm_file_type : str;
  cm_file_size : Z;
  cm_extracted_text : str;
  cm_is_processed : bool;
  cm_uploaded_by : Z;
  cm_uploaded_at : str;
  cm_description : str
}.

(** The session [db]: the rows, the id the next row gets, and whether a
    commit goes through. *)
Record Session := {
  db_rows : list CourseMaterial;
  db_next_id : Z;
  db_error : option str
}.

(** The language model's response: [response.text] is a text, or raises
    when the response carries none. *)
Inductive Response :=
| WithText (text : str)
| NoText (msg : str).

(** The outside, as the service sees it. *)
Record Env := {
  pdf_pages : list Byte.byte -> Exc (list (Exc str));
  embed_content : str -> Exc vector;
  generate_content : str -> Exc Response;
  similarity : vector -> vector -> float;
  uuid4 : nat -> str;
  now_isoformat : str
}.

(** The calls that leave the process. *)
Inductive Event :=
| EvExtract (pdf_content : list Byte.byte)
| EvEmbed (content : str)
| EvUpsert (size : nat)
| EvQuery (f : Filter) (top_k : Z)
| EvGenerate (prompt : str)
| EvCommit.

Record State := {
  st_index : option VectorIndex;
  st_db : Session;
  st_trace : list Event
}.

Definition M (A : Type) : Type := State -> Exc A * State.

Definition ret {A} (a : A) : M A := fun st => (Ok a, st).

Definition raise {A} (msg : str) : M A := fun st => (Raise msg, st).

Definition bind {A B} (m : M A) (k : A -> M B) : M B :=
  fun st => match m st with
            | (Ok a, st') => k a st'
            | (Raise msg, st') => (Raise msg, st')
            end.

(** [try: m  except Exception as e: h(str(e))] *)
Definition try_except {A} (m : M A) (h : str -> M A) : M A :=
  fun st => match m st with
            | (Ok a, st') => (Ok a, st')
            | (Raise msg, st') => h msg st'
            end.

Definition lift {A} (x : Exc A) : M A := fun st => (x, st).

Definition get_index : M (option VectorIndex) := fun st => (Ok (st_index st), st).

Definition set_index (ix : VectorIndex) : M unit :=
  fun st => (Ok tt, {| st_index := Some ix; st_db := st_db st; st_trace := st_trace st |}).

Definition get_db : M Session := fun st => (Ok (st_db st), st).

Definition set_db (db : Session) : M unit :=
  fun st => (Ok tt, {| st_index := st_index st; st_db := db; st_trace := st_trace st |}).

Definition emit (e : Event) : M unit :=
  fun st => (Ok tt, {| st_index := st_index st; st_db := st_db st;
                       st_trace := st_trace st ++ [e] |}).

(** The state after the calls [evs] have been made. *)
Definition traced (st : State) (evs : list Event) : State :=
  {| st_index := st_index st; st_db := st_db st; st_trace := st_trace st ++ evs |}.

Declare Scope m_scope.
Delimit Scope m_scope with M.
Notation "x <- m ;; k" := (bind m (fun x => k))
  (at level 61, m at next level, right associativity) : m_scope.
Notation "m ;;; k" := (bind m (fun _ => k))
  (at level 61, right associativity) : m_scope.

End Effects.

(** ** The vector index

    The index is an outside service: the source only calls its [upsert]
    and [query]. Section 4.4 of the specification gives its contract, and
    this module is an in-memory index that follows it. *)
Module Index.
Import PyStr Effects.

Fixpoint str_eqb (a b : str) : bool :=
  match a, b with
  | [], [] => true
  | x :: a', y :: b' => N.eqb x y && str_eqb a' b'
  | _, _ => false
  end.

(** Insert [e], replacing the entry with the same id if there is one. *)
Fixpoint put (e : IndexEntry) (l : list IndexEntry) : list IndexEntry :=
  match l with
  | [] => [e]
  | x :: r => if str_eqb (ie_id x) (ie_id e) then e :: r else x :: put e r
  end.

(** Modelled from the spec: [index.upsert(vectors=batch)] of the outside
    vector index (section 4.4): inserts or replaces entries by id; raises
    when the service does not answer. *)
Definition upsert (ix : VectorIndex) (vectors : list IndexEntry) : Exc VectorIndex :=
  match ix_error ix with
  | Some msg => Raise msg
  | None => Ok {| ix_entries := fold_left (fun l e => put e l) vectors (ix_entries ix);
                  ix_error := None |}
  end.

Definition satisfies (f : Filter) (e : IndexEntry) : bool :=
  match f with
  | UserIdEq u => md_user_id (ie_metadata e) =? u
  end.

Definition to_match (sim : vector -> vector -> float) (v : vector) (e : IndexEntry)
  : Match :=
  {| m_id := ie_id e; m_score := sim v (ie_values e); m_metadata := ie_metadata e |}.

(** Insertion into a list ordered by descending score. *)
Fixpoint insert_desc (m : Match) (l : list Match) : list Match :=
  match l with
  | [] => [m]
  | x :: r => if PrimFloat.leb (m_score m) (m_score x)
              then x :: insert_desc m r else m :: l
  end.

Definition rank (l : list Match) : list Match := fold_right insert_desc [] l.

(** Modelled from the spec: [index.query(vector, filter, top_k,
    include_metadata=True)] of the outside vector index (section 4.4): at
    most [top_k] matches that satisfy the filter, ordered by descending
    similarity; raises when the service does not answer. *)
Definition query (sim : vector -> vector -> float) (ix : VectorIndex)
    (v : vector) (f : Filter) (top_k : Z) : Exc (list Match) :=
  match ix_error ix with
  | Some msg => Raise msg
  | None =>
      Ok (firstn (Z.to_nat top_k)
            (rank (List.map (to_match sim v) (filter (satisfies f) (ix_entries ix)))))
  end.

End Index.

(** ** The service: [RAGService] *)
Module Rag.
Import PyStr Chunker Effects.
Local Open Scope m_scope.

Definition nl : str := [10%N].

(** The dimension of the embedding vectors (lines 95 and 186). *)
Definition dimension : nat := 768.

(** *** [extract_text_from_pdf] (lines 118-134) *)

(** Lines 124-127: the text of the pages, each followed by a newline,
    pages without text left out. *)
Fixpoint pages_text (pages : list (Exc str)) (text : str) : M str :=
  match pages with
  | [] => ret text
  | Raise msg :: _ => raise msg
  | Ok page_text :: rest =>
      pages_text rest (if truthy page_text then text ++ page_text ++ nl else text)
  end.

Definition extract_text_from_pdf (env : Env) (pdf_content : list Byte.byte) : M str :=
  try_except
    (emit (EvExtract pdf_content) ;;;
     pages <- lift (pdf_pages env pdf_content) ;;
     text <- pages_text pages [] ;;
     if negb (truthy (strip text))
     then raise (lit "No readable text found in PDF")
     else ret (strip text))
    (fun e => raise (lit "Error extracting text from PDF: " ++ e)).

(** *** [chunk_text] with its default arguments

    [len text + 1] iterations are enough for the loop to finish (see
    [chunk_text_default_returns] below), so the default is never used. *)
Definition chunk_text_default (text : str) : list str :=
  match chunk_text (S (Z.to_nat (len text))) text default_chunk_size default_overlap with
  | Some chunks => chunks
  | None => []
  end.

(** *** [get_embeddings] (lines 170-188) *)

(** Lines 175-186: one item's vector, the zero vector when the call
    raises. *)
Definition embed_or_zero (env : Env) (text : str) : vector :=
  match embed_content env text with
  | Ok embedding => embedding
  | Raise _ => repeat 0%float dimension
  end.

Fixpoint embed_loop (env : Env) (texts : list str) (embeddings : list vector)
  : M (list vector) :=
  match texts with
  | [] => ret embeddings
  | text :: rest =>
      emit (EvEmbed text) ;;;
      embed_loop env rest (embeddings ++ [embed_or_zero env text])
  end.

Definition get_embeddings (env : Env) (texts : list str) : M (list vector) :=
  embed_loop env texts [].

(** *** [upload_document] (lines 190-285) *)

(** The result dict: [success] true with its fields, or false with a
    message. *)
Inductive UploadResult :=
| UploadOk (message : str) (course_id chunks_created text_length : Z)
| UploadFailed (message : str).

(** Lines 228-240: [zip] of the ids, the chunks and the embeddings, with
    the position as chunk index. *)
Fixpoint build_vectors (env : Env) (filename : str) (user_id : Z) (i : Z)
    (chunk_ids chunks : list str) (embeddings : list vector) : list IndexEntry :=
  match chunk_ids, chunks, embeddings with
  | chunk_id :: ids', chunk :: chunks', embedding :: embeddings' =>
      {| ie_id := chunk_id;
         ie_values := embedding;
         ie_metadata := {| md_text := chunk;
                           md_filename := filename;
                           md_user_id := user_id;
                           md_chunk_index := i;
                           md_upload_date := now_isoformat env |} |}
      :: build_vectors env filename user_id (i + 1) ids' chunks' embeddings'
  | _, _, _ => []
  end.

(** Lines 245-246: [vectors[i:i + batch_size]] for [i] in steps of
    [batch_size]; [fuel] bounds the number of batches. *)
Fixpoint batches (fuel batch_size : nat) (vectors : list IndexEntry)
  : list (list IndexEntry) :=
  match fuel, vectors with
  | O, _ => []
  | _, [] => []
  | S fuel', _ => firstn batch_size vectors
                  :: batches fuel' batch_size (skipn batch_size vectors)
  end.

(** Line 247, for each batch. *)
Fixpoint upsert_batches (bs : list (list IndexEntry)) : M unit :=
  match bs with
  | [] => ret tt
  | batch :: rest =>
      index <- get_index ;;
      match index with
      | None => raise (lit "'NoneType' object has no attribute 'upsert'")
      | Some ix =>
          emit (EvUpsert (List.length batch)) ;;;
          ix' <- lift (Index.upsert ix batch) ;;
          set_index ix' ;;;
          upsert_batches rest
      end
  end.

(** Lines 268-270: [db.add], [db.commit], [db.refresh]; the row comes
    back with its id. *)
Definition db_save (row : Z -> CourseMaterial) : M CourseMaterial :=
  emit EvCommit ;;;
  db <- get_db ;;
  match db_error db with
  | Some msg => raise msg
  | None =>
      let r := row (db_next_id db) in
      set_db {| db_rows := db_rows db ++ [r];
                db_next_id := db_next_id db + 1;
                db_error := None |} ;;;
      ret r
  end.

Definition upload_body (env : Env) (file_content : list Byte.byte)
    (filename : str) (user_id : Z) : M UploadResult :=
  index <- get_index ;;
  match index with
  | None =>
      raise (lit "Pinecone index not available. Please check your Pinecone configuration.")
  | Some _ =>
      text_content <- extract_text_from_pdf env file_content ;;
      if negb (truthy (strip text_content))
      then raise (lit "No text found in the PDF")
      else
        let chunks := chunk_text_default text_content in
        embeddings <- get_embeddings env chunks ;;
        let chunk_ids :=
          List.map (fun i => lit "doc_" ++ str_of_int user_id ++ lit "_" ++ uuid4 env i)
                   (seq 0 (List.length chunks)) in
        let vectors := build_vectors env filename user_id 0 chunk_ids chunks embeddings in
        upsert_batches (batches (List.length vectors) 100 vectors) ;;;
        course_material <- db_save (fun id =>
          {| cm_id := id;
             cm_course_id := 1;
             cm_filename := filename;
             cm_original_filename := filename;
             cm_file_path := lit "uploads/" ++ filename;
             cm_file_type := lit "pdf";
             cm_file_size := Z.of_nat (List.length file_content);
             cm_extracted_text := slice text_content 0 5000;
             cm_is_processed := true;
             cm_uploaded_by := user_id;
             cm_uploaded_at := now_isoformat env;
             cm_description :=
               lit "Processed PDF with " ++ str_of_int (Z.of_nat (List.length chunks))
               ++ lit " chunks" |}) ;;
        ret (UploadOk (lit "Document '" ++ filename ++ lit "' processed successfully")
                      (cm_id course_material)
                      (Z.of_nat (List.length chunks))
                      (len text_content))
  end.

Definition upload_document (env : Env) (file_content : list Byte.byte)
    (filename : str) (user_id : Z) : M UploadResult :=
  try_except
    (upload_body env file_content filename user_id)
    (fun e => ret (UploadFailed (lit "Error processing document: " ++ e))).

(** *** [search_documents] (lines 287-319) *)

(** The dict built for each match (lines 308-313). *)
Record RelevantChunk := {
  rc_text : str;
  rc_filename : str;
  rc_score : float;
  rc_chunk_index : Z
}.

Definition chunk_of_match (m : Match) : RelevantChunk :=
  {| rc_text := md_text (m_metadata m);
     rc_filename := md_filename (m_metadata m);
     rc_score := m_score m;
     rc_chunk_index := md_chunk_index (m_metadata m) |}.

Definition search_documents (env : Env) (query : str) (user_id : Z) (top_k : Z)
  : M (list RelevantChunk) :=
  try_except
    (index <- get_index ;;
     match index with
     | None => ret []
     | Some ix =>
         embeddings <- get_embeddings env [query] ;;
         match embeddings with
         | [] => raise (lit "list index out of range")
         | query_embedding :: _ =>
             emit (EvQuery (UserIdEq user_id) top_k) ;;;
             matches <- lift (Index.query (similarity env) ix query_embedding
                                          (UserIdEq user_id) top_k) ;;
             ret (List.map chunk_of_match matches)
         end
     end)
    (fun _ => ret []).

(** *** [answer_question] (lines 321-384) *)

Record Source := {
  src_filename : str;
  src_relevance_score : float;
  src_preview : str
}.

Record Answer := {
  answer : str;
  sources : list Source;
  has_context : bool;
  chunks_used : option Z
}.

(** [sep.join(parts)] *)
Fixpoint join (sep : str) (parts : list str) : str :=
  match parts with
  | [] => []
  | [x] => x
  | x :: rest => x ++ sep ++ join sep rest
  end.

Definition no_information : str :=
  lit "I couldn't find any relevant information in your uploaded documents. Please make sure you've uploaded course materials related to your question.".

Definition apology : str :=
  lit "I apologize, but I encountered an error while processing your question: ".

(** Lines 335-338. *)
Definition context_of (relevant_chunks : list RelevantChunk) : str :=
  join (nl ++ nl)
       (List.map (fun chunk => lit "From " ++ rc_filename chunk ++ lit ":" ++ nl
                               ++ rc_text chunk)
                 relevant_chunks).

(** Lines 341-357. *)
Definition prompt_of (context question : str) : str :=
  lit "
Based on the following course materials, please answer the student's question comprehensively and accurately.

COURSE MATERIALS:
" ++ context ++ lit "

STUDENT QUESTION: " ++ question ++ lit "

INSTRUCTIONS:
- Answer based primarily on the provided course materials
- If the materials don't fully address the question, clearly state what's missing
- Provide examples from the materials when possible
- Keep the answer educational and helpful
- If asked about topics not covered in the materials, suggest what additional resources might be needed

ANSWER:
".

(** Lines 363-370: a source of the answer, with its preview. *)
Definition source_of (chunk : RelevantChunk) : Source :=
  {| src_filename := rc_filename chunk;
     src_relevance_score := rc_score chunk;
     src_preview := if 200 <? len (rc_text chunk)
                    then slice (rc_text chunk) 0 200 ++ lit "..."
                    else rc_text chunk |}.

(** A source carries its chunk's filename and score, and as preview the
    chunk's text, cut after 200 characters and marked with three dots
    when it is longer. *)
Definition previews (s : Source) (c : RelevantChunk) : Prop :=
  src_filename s = rc_filename c /\
  src_relevance_score s = rc_score c /\
  (len (rc_text c) <= 200 -> src_preview s = rc_text c) /\
  (200 < len (rc_text c) ->
   src_preview s = firstn 200 (rc_text c) ++ lit "..." /\
   len (src_preview s) = 203).

(** [response.text] *)
Definition response_text (response : Response) : Exc str :=
  match response with
  | WithText text => Ok text
  | NoText msg => Raise msg
  end.

Definition answer_question (env : Env) (question : str) (user_id : Z) : M Answer :=
  try_except
    (relevant_chunks <- search_documents env question user_id 3 ;;
     match relevant_chunks with
     | [] => ret {| answer := no_information;
                    sources := [];
                    has_context := false;
                    chunks_used := None |}
     | _ :: _ =>
         let context := context_of relevant_chunks in
         let prompt := prompt_of context question in
         emit (EvGenerate prompt) ;;;
         response <- lift (generate_content env prompt) ;;
         let sources := List.map source_of relevant_chunks in
         text <- lift (response_text response) ;;
         ret {| answer := text;
                sources := sources;
                has_context := true;
                chunks_used := Some (Z.of_nat (List.length relevant_chunks)) |}
     end)
    (fun e => ret {| answer := apology ++ e;
                     sources := [];
                     has_context := false;
                     chunks_used := None |}).

End Rag.

(** ** Concrete services and states, for the examples *)
Module Examples.
Import PyStr Effects Rag.

Definition long_text : str := repeat 97%N 201.

Definition entry (id : string) (text : str) (user_id : Z) : IndexEntry :=
  {| ie_id := lit id;
     ie_values := repeat 0%float dimension;
     ie_metadata := {| md_text := text;
                       md_filename := lit "notes.pdf";
                       md_user_id := user_id;
                       md_chunk_index := 0;
                       md_upload_date := lit "2024-01-01T00:00:00" |} |}.

(** An index with one chunk of owner 1 and one of owner 2. *)
Definition two_owners : State :=
  {| st_index := Some {| ix_entries := [entry "doc_1_a" long_text 1;
                                        entry "doc_2_b" (lit "secret") 2];
                         ix_error := None |};
     st_db := {| db_rows := []; db_next_id := 1; db_error := None |};
     st_trace := [] |}.

(** A service without an index handle. *)
Definition no_index : State :=
  {| st_index := None;
     st_db := {| db_rows := []; db_next_id := 1; db_error := None |};
     st_trace := [] |}.

(** The outside: the embedding endpoint answers for non-empty texts only;
    the language model does what [model] says. *)
Definition outside (model : str -> Exc Response) : Env :=
  {| pdf_pages := fun _ => Ok [Ok (lit "The capital of France is Paris.")];
     embed_content := fun text => if truthy text
                                  then Ok (repeat 1%float dimension)
                                  else Raise (lit "empty content");
     generate_content := model;
     similarity := fun _ _ => 0%float;
     uuid4 := fun _ => lit "0000";
     now_isoformat := lit "2024-01-01T00:00:00" |}.

Definition answering : Env := outside (fun _ => Ok (WithText (lit "Paris."))).

Definition silent : Env := outside (fun _ => Ok (NoText (lit "no valid Part"))).

End Examples.

(** ** The listing of a user's documents: [get_user_documents] *)
Module Listing.
Import PyStr Effects Rag.
Local Open Scope m_scope.

(** [text.split()]: the maximal runs of characters that are not
    whitespace; [word] is the run being read. *)
Fixpoint split_from (text word : str) : list str :=
  match text with
  | [] => if truthy word then [word] else []
  | c :: rest =>
      if is_space c
      then (if truthy word then word :: split_from rest [] else split_from rest [])
      else split_from rest (word ++ [c])
  end.

Definition split (text : str) : list str := split_from text [].

(** The dict built for each material (lines 396-403). *)
Record Document := {
  doc_id : Z;
  doc_filename : str;
  doc_upload_date : str;
  doc_file_size : Z;
  doc_total_chunks : Z;
  doc_status : str
}.

Definition document_of (material : CourseMaterial) : Document :=
  {| doc_id := cm_id material;
     doc_filename := cm_filename material;
     doc_upload_date := cm_uploaded_at material;
     doc_file_size := cm_file_size material;
     doc_total_chunks :=
       if truthy (cm_extracted_text material)
       then Z.of_nat (List.length (split (cm_extracted_text material))) / 100
       else 0;
     doc_status := if cm_is_processed material then lit "processed" else lit "pending" |}.

(** Lines 391-393: the rows the user uploaded; the query raises when the
    session does not answer (reads of the session are not in the trace). *)
Definition query_materials (user_id : Z) : M (list CourseMaterial) :=
  db <- get_db ;;
  match db_error db with
  | Some msg => raise msg
  | None => ret (filter (fun m => cm_uploaded_by m =? user_id) (db_rows db))
  end.

(** [get_user_documents] (lines 386-409) *)
Definition get_user_documents (user_id : Z) : M (list Document) :=
  try_except
    (materials <- query_materials user_id ;;
     ret (List.map document_of materials))
    (fun _ => ret []).

End Listing.

(** ** The routes that call the service (api/routes/courses.py) *)
Module Routes.
Import PyStr Effects Rag.

(** What a route gives back: its return value, or the [HTTPException] it
    raises. *)
Inductive Http (A : Type) : Type :=
| Returns (body : A)
| HTTPException (status_code : Z) (detail : str).
Arguments Returns {A} body.
Arguments HTTPException {A} status_code detail.

(** What the routes take from the language and the framework:
    [str.lower], and [str(e)] for an [HTTPException] [e]. *)
Record Framework := {
  str_lower : str -> str;
  http_exception_str : Z -> str -> str
}.

(** [text.endswith(suffix)] *)
Definition endswith (text suffix : str) : bool :=
  (Nat.leb (List.length suffix) (List.length text) &&
   Index.str_eqb (skipn (List.length text - List.length suffix) text) suffix)%bool.

(** The body the upload route returns (lines 83-88). *)
Record Uploaded := {
  up_message : str;
  up_course_id : Z;
  up_chunks_created : Z;
  up_filename : str
}.

(** [upload_document] (lines 45-96). [service] is what
    [get_rag_service()] does: it returns the service, or raises when the
    service cannot be constructed. *)
Definition upload_document (fw : Framework) (env : Env) (service : Exc unit)
    (filename : str) (file_content : list Byte.byte) (current_user_id : Z)
  : State -> Http Uploaded * State :=
  fun st =>
  if negb (endswith (str_lower fw filename) (lit ".pdf"))
  then (HTTPException 400 (lit "Only PDF files are supported"), st)
  else if 10 * 1024 * 1024 <? Z.of_nat (List.length file_content)
  then (HTTPException 400 (lit "File too large. Maximum size is 10MB"), st)
  else if Z.of_nat (List.length file_content) =? 0
  then (HTTPException 400 (lit "Empty file uploaded"), st)
  else
    match service with
    | Raise e => (HTTPException 500 (lit "Error processing document: " ++ e), st)
    | Ok _ =>
        match Rag.upload_document env file_content filename current_user_id st with
        | (Ok (UploadOk message course_id chunks_created _), st') =>
            (Returns {| up_message := message;
                        up_course_id := course_id;
                        up_chunks_created := chunks_created;
                        up_filename := filename |}, st')
        | (Ok (UploadFailed message), st') =>
            (HTTPException 500
               (lit "Error processing document: " ++ http_exception_str fw 400 message),
             st')
        | (Raise e, st') =>
            (HTTPException 500 (lit "Error processing document: " ++ e), st')
        end
    end.

(** [ask_question] (lines 98-128) *)
Definition ask_question (env : Env) (service : Exc unit) (question : str)
    (current_user_id : Z) : State -> Http Answer * State :=
  fun st =>
  if negb (truthy (strip question))
  then (HTTPException 400 (lit "Question cannot be empty"), st)
  else
    match service with
    | Raise e => (HTTPException 500 (lit "Error answering question: " ++ e), st)
    | Ok _ =>
        match answer_question env question current_user_id st with
        | (Ok result, st') =>
            (Returns {| answer := answer result;
                        sources := sources result;
                        has_context := has_context result;
                        chunks_used := chunks_used result |}, st')
        | (Raise e, st') =>
            (HTTPException 500 (lit "Error answering question: " ++ e), st')
        end
    end.

(** The body the search route returns (lines 178-182). *)
Record Found := {
  fd_query : str;
  fd_results : list RelevantChunk;
  fd_total_results : Z
}.

(** [search_documents] (lines 157-188) *)
Definition search_documents (env : Env) (service : Exc unit) (query : str)
    (top_k : Z) (current_user_id : Z) : State -> Http Found * State :=
  fun st =>
  if negb (truthy (strip query))
  then (HTTPException 400 (lit "Search query cannot be empty"), st)
  else
    match service with
    | Raise e => (HTTPException 500 (lit "Error searching documents: " ++ e), st)
    | Ok _ =>
        match Rag.search_documents env query current_user_id (Z.min top_k 10) st with
        | (Ok results, st') =>
            (Returns {| fd_query := query;
                        fd_results := results;
                        fd_total_results := Z.of_nat (List.length results) |}, st')
        | (Raise e, st') =>
            (HTTPException 500 (lit "Error searching documents: " ++ e), st')
        end
    end.

End Routes.

(** ** The states and values of the service's runs *)
Module RagRuns.
Import PyStr Chunker Effects Index Rag.

(** The text of the pages, when no page raises. *)
Fixpoint pages_joined (pages : list (Exc str)) (text : str) : Exc str :=
  match pages with
  | [] => Ok text
  | Raise msg :: _ => Raise msg
  | Ok page_text :: rest =>
      pages_joined rest (if truthy page_text then text ++ page_text ++ nl else text)
  end.

(** The state after the batches [bs] went into the index [ix]. *)
Definition upserted (st : State) (ix : VectorIndex) (bs : list (list IndexEntry))
  : State :=
  {| st_index := Some {| ix_entries :=
                           fold_left (fun l e => put e l) (List.concat bs) (ix_entries ix);
                         ix_error := None |};
     st_db := st_db st;
     st_trace := st_trace st ++ List.map (fun b => EvUpsert (List.length b)) bs |}.

(** The vectors an upload builds from the extracted text (lines
    216-240). *)
Definition upload_vectors (env : Env) (filename : str) (user_id : Z) (text : str)
  : list IndexEntry :=
  let chunks := chunk_text_default text in
  build_vectors env filename user_id 0
    (List.map (fun i => lit "doc_" ++ str_of_int user_id ++ lit "_" ++ uuid4 env i)
              (seq 0 (List.length chunks)))
    chunks (List.map (embed_or_zero env) chunks).

(** The row an upload saves (lines 254-266). *)
Definition material_row (env : Env) (file_content : list Byte.byte)
    (filename : str) (user_id : Z) (text : str) (id : Z) : CourseMaterial :=
  {| cm_id := id;
     cm_course_id := 1;
     cm_filename := filename;
     cm_original_filename := filename;
     cm_file_path := lit "uploads/" ++ filename;
     cm_file_type := lit "pdf";
     cm_file_size := Z.of_nat (List.length file_content);
     cm_extracted_text := slice text 0 5000;
     cm_is_processed := true;
     cm_uploaded_by := user_id;
     cm_uploaded_at := now_isoformat env;
     cm_description :=
       lit "Processed PDF with "
       ++ str_of_int (Z.of_nat (List.length (chunk_text_default text)))
       ++ lit " chunks" |}.

(** The outside calls of an upload that reaches the commit. *)
Definition upload_trace (env : Env) (file_content : list Byte.byte)
    (filename : str) (user_id : Z) (text : str) : list Event :=
  [EvExtract file_content]
  ++ List.map EvEmbed (chunk_text_default text)
  ++ List.map (fun b => EvUpsert (List.length b))
       (batches (List.length (upload_vectors env filename user_id text)) 100
                (upload_vectors env filename user_id text))
  ++ [EvCommit].

(** The outside of the examples, with a reader that answers [r]. *)
Definition reading (r : Exc (list (Exc str))) : Env :=
  {| pdf_pages := fun _ => r;
     embed_content := embed_content Examples.answering;
     generate_content := generate_content Examples.answering;
     similarity := similarity Examples.answering;
     uuid4 := uuid4 Examples.answering;
     now_isoformat := now_isoformat Examples.answering |}.

(** A state with an index that answers and holds [entries], and a session
    that answers [db_err] to a commit. *)
Definition serving (entries : list IndexEntry) (db_err : option str) : State :=
  {| st_index := Some {| ix_entries := entries; ix_error := None |};
     st_db := {| db_rows := []; db_next_id := 1; db_error := db_err |};
     st_trace := [] |}.

(** A framework for the examples: lower case for the letters A to Z, and
    an exception printed as its status and its detail. *)
Definition plain : Routes.Framework :=
  {| Routes.str_lower :=
       List.map (fun c => if (N.leb 65 c && N.leb c 90)%bool then (c + 32)%N else c);
     Routes.http_exception_str :=
       fun status detail => str_of_int status ++ lit ": " ++ detail |}.

End RagRuns.

(** ** Facts about slices *)
Module PyStrFacts.
Import PyStr.

Lemma len_nonneg (t : str) : 0 <= len t.
Proof. unfold len. lia. Qed.

Lemma adjust_nonneg (n i : Z) : 0 <= n -> 0 <= i -> adjust n i = Z.min i n.
Proof.
  intros Hn Hi. unfold adjust.
  destruct (i <? 0) eqn:E1; [apply Z.ltb_lt in E1; lia|].
  rewrite E1. destruct (n <? i) eqn:E2.
  - apply Z.ltb_lt in E2. lia.
  - apply Z.ltb_ge in E2. lia.
Qed.

Lemma firstn_firstn_skipn {A} (k m : nat) (l : list A) :
  firstn k l ++ firstn m (skipn k l) = firstn (k + m) l.
Proof.
  revert l. induction k as [|k IH]; intros l; simpl.
  - reflexivity.
  - destruct l as [|x l]; simpl.
    + now rewrite firstn_nil.
    + now rewrite IH.
Qed.

Lemma skipn_add {A} (k m : nat) (l : list A) :
  skipn (k + m) l = skipn m (skipn k l).
Proof.
  revert l. induction k as [|k IH]; intros l; simpl.
  - reflexivity.
  - destruct l as [|x l]; simpl.
    + now rewrite skipn_nil.
    + apply IH.
Qed.

Lemma slice_nonneg (t : str) (a b : Z) :
  0 <= a -> 0 <= b ->
  slice t a b =
  firstn (Z.to_nat (Z.min b (len t) - Z.min a (len t)))
         (skipn (Z.to_nat (Z.min a (len t))) t).
Proof.
  intros Ha Hb. unfold slice.
  now rewrite !adjust_nonneg by (auto using len_nonneg).
Qed.

(** Two adjacent slices make one. *)
Lemma slice_app (t : str) (a b c : Z) :
  0 <= a -> a <= b -> b <= c ->
  slice t a b ++ slice t b c = slice t a c.
Proof.
  intros Ha Hab Hbc.
  rewrite !slice_nonneg by lia.
  pose proof (len_nonneg t) as Hn.
  set (n := len t) in *.
  replace (skipn (Z.to_nat (Z.min b n)) t)
    with (skipn (Z.to_nat (Z.min b n - Z.min a n)) (skipn (Z.to_nat (Z.min a n)) t)).
  - rewrite firstn_firstn_skipn. f_equal. lia.
  - rewrite <- skipn_add. f_equal. lia.
Qed.

(** A slice that runs to the end of the text or beyond is a suffix. *)
Lemma slice_to_end (t : str) (a b : Z) :
  0 <= a -> len t <= b -> slice t a b = slice t a (len t).
Proof.
  intros Ha Hb. pose proof (len_nonneg t).
  rewrite !slice_nonneg by lia. do 2 f_equal. lia.
Qed.

(** A slice followed by the rest of the text is a suffix. *)
Lemma slice_app_end (t : str) (a b : Z) :
  0 <= a -> a <= b ->
  slice t a b ++ slice t b (len t) = slice t a (len t).
Proof.
  intros Ha Hab. pose proof (len_nonneg t) as Hn.
  destruct (Z.le_gt_cases b (len t)) as [H|H].
  - apply slice_app; lia.
  - rewrite (slice_to_end t a b) by lia.
    rewrite (slice_nonneg t b) by lia.
    replace (Z.min (len t) (len t) - Z.min b (len t)) with 0 by lia.
    simpl. apply app_nil_r.
Qed.

Lemma slice_all (t : str) : slice t 0 (len t) = t.
Proof.
  pose proof (len_nonneg t).
  rewrite slice_nonneg by lia.
  rewrite Z.min_id, Z.min_l by lia. simpl skipn.
  rewrite Z.sub_0_r. unfold len. rewrite Nat2Z.id. apply firstn_all.
Qed.

Lemma truthy_nonempty (t : str) : truthy t = true <-> t <> [].
Proof. destruct t; simpl; split; congruence. Qed.

(** *** Trimming *)

Lemma lstrip_idem (t : str) : lstrip (lstrip t) = lstrip t.
Proof.
  induction t as [|c r IH]; simpl; [reflexivity|].
  destruct (is_space c) eqn:E; [exact IH|]. simpl. now rewrite E.
Qed.

Lemma lstrip_length (t : str) : (List.length (lstrip t) <= List.length t)%nat.
Proof.
  induction t as [|c r IH]; simpl; [lia|].
  destruct (is_space c); simpl; lia.
Qed.

Lemma lstrip_snoc (l : str) (c : char) :
  is_space c = false -> lstrip (l ++ [c]) = lstrip l ++ [c].
Proof.
  intros Hc. induction l as [|x l IH]; simpl.
  - now rewrite Hc.
  - destruct (is_space x); [exact IH | reflexivity].
Qed.

Lemma rstrip_idem (t : str) : rstrip (rstrip t) = rstrip t.
Proof. unfold rstrip. now rewrite rev_involutive, lstrip_idem. Qed.

Lemma lstrip_rstrip (u : str) : lstrip u = u -> lstrip (rstrip u) = rstrip u.
Proof.
  destruct u as [|c r]; [reflexivity|]. intros H.
  destruct (is_space c) eqn:E.
  - exfalso. simpl in H. rewrite E in H.
    pose proof (lstrip_length r) as Hl. rewrite H in Hl. simpl in Hl. lia.
  - unfold rstrip. simpl rev. rewrite lstrip_snoc by assumption.
    rewrite rev_app_distr. simpl. now rewrite E.
Qed.

(** Trimming twice is trimming once. *)
Lemma strip_idem (t : str) : strip (strip t) = strip t.
Proof.
  unfold strip. rewrite lstrip_rstrip by apply lstrip_idem. apply rstrip_idem.
Qed.

(** What [lstrip] removes is whitespace. *)
Lemma lstrip_spec (t : str) :
  exists l, t = l ++ lstrip t /\ forallb is_space l = true.
Proof.
  induction t as [|c r (l & Hl & Hs)]; simpl.
  - now exists [].
  - destruct (is_space c) eqn:E.
    + exists (c :: l). simpl. rewrite E, Hs. split; [now f_equal | reflexivity].
    + now exists [].
Qed.

(** What [strip] removes is whitespace at the two ends. *)
Lemma strip_spec (t : str) :
  exists l r, t = l ++ strip t ++ r /\
              forallb is_space l = true /\ forallb is_space r = true.
Proof.
  destruct (lstrip_spec t) as (l & Hl & Hsl).
  destruct (lstrip_spec (rev (lstrip t))) as (r & Hr & Hsr).
  exists l, (rev r). unfold strip, rstrip. repeat split.
  - rewrite <- rev_app_distr, <- Hr, rev_involutive. exact Hl.
  - exact Hsl.
  - rewrite forallb_forall in *. intros x Hx. apply Hsr. now apply in_rev.
Qed.

End PyStrFacts.

(** ** The chunker's loop *)
Module ChunkerFacts.
Import PyStr Chunker ChunkerSpans PyStrFacts.

Lemma chunk_loop_spans fuel text cs ov : forall start chunks,
  chunk_loop fuel text cs ov start chunks =
  option_map (fun sp => chunks ++ span_chunks text sp)
             (chunk_spans fuel text cs ov start).
Proof.
  induction fuel as [|fuel IH]; intros start chunks; simpl; [reflexivity|].
  destruct (start <? len text); simpl.
  - set (e := chunk_end text cs start).
    set (c := strip (slice text start e)).
    destruct (len text <=? e - ov); simpl.
    + unfold span_chunks; simpl. fold c.
      destruct (truthy c); simpl; [reflexivity | now rewrite app_nil_r].
    + rewrite IH.
      destruct (chunk_spans fuel text cs ov (e - ov)) as [sp|]; simpl; [|reflexivity].
      unfold span_chunks; simpl. fold c.
      destruct (truthy c); simpl; [now rewrite <- app_assoc | reflexivity].
  - unfold span_chunks; simpl. now rewrite app_nil_r.
Qed.

(** Every iteration ends past the midpoint of the prospective chunk. *)
Lemma chunk_end_lower (text : str) (cs start : Z) :
  1 <= cs -> start + cs / 2 + 1 <= chunk_end text cs start.
Proof.
  intros Hcs.
  assert (cs / 2 + 1 <= cs).
  { assert (cs / 2 < cs) by (apply Z.div_lt; lia). lia. }
  unfold chunk_end.
  destruct (start + cs <? len text); [|lia].
  destruct (negb (rfind text dot start (start + cs) =? -1) &&
            (start + cs / 2 <? rfind text dot start (start + cs)))%bool eqn:E1.
  - apply andb_true_iff in E1 as [_ E1]. apply Z.ltb_lt in E1. lia.
  - destruct (negb (rfind text space start (start + cs) =? -1) &&
              (start + cs / 2 <? rfind text space start (start + cs)))%bool eqn:E2.
    + apply andb_true_iff in E2 as [_ E2]. apply Z.ltb_lt in E2. lia.
    + lia.
Qed.

(** The loop finishes within [len text - start] iterations, and one more
    for the test that ends it. *)
Lemma chunk_spans_total (text : str) (cs ov : Z) :
  1 <= cs -> ov <= cs / 2 ->
  forall fuel start, (Z.to_nat (len text - start) < fuel)%nat ->
  exists sp, chunk_spans fuel text cs ov start = Some sp.
Proof.
  intros Hcs Hov. induction fuel as [|fuel IH]; intros start Hf; [lia|].
  simpl. destruct (start <? len text) eqn:E; [|eauto].
  apply Z.ltb_lt in E.
  pose proof (chunk_end_lower text cs start Hcs) as He.
  destruct (len text <=? chunk_end text cs start - ov) eqn:E2; [eauto|].
  apply Z.leb_gt in E2.
  destruct (IH (chunk_end text cs start - ov)) as [sp Hsp]; [lia|].
  rewrite Hsp. simpl. eauto.
Qed.

(** More fuel does not change a finished loop's result. *)
Lemma chunk_spans_fuel_mono (text : str) (cs ov : Z) :
  forall fuel fuel' start sp, (fuel <= fuel')%nat ->
  chunk_spans fuel text cs ov start = Some sp ->
  chunk_spans fuel' text cs ov start = Some sp.
Proof.
  induction fuel as [|fuel IH]; intros fuel' start sp Hle H; [discriminate|].
  destruct fuel' as [|fuel']; [lia|].
  simpl in *. destruct (start <? len text); [|assumption].
  destruct (len text <=? chunk_end text cs start - ov); [assumption|].
  destruct (chunk_spans fuel text cs ov (chunk_end text cs start - ov)) as [sp'|] eqn:E;
    [|discriminate].
  rewrite (IH fuel' _ sp'); [assumption | lia | assumption].
Qed.

(** The spans are chained and their novel parts rebuild the text from the
    previous end on. *)
Lemma chunk_spans_cover (text : str) (cs ov : Z) :
  1 <= cs -> 0 <= ov <= cs / 2 ->
  forall fuel start prev sp,
  0 <= prev -> start <= prev <= start + ov -> start < len text ->
  chunk_spans fuel text cs ov start = Some sp ->
  chained prev sp /\ List.concat (novel text prev sp) = slice text prev (len text).
Proof.
  intros Hcs Hov. induction fuel as [|fuel IH];
    intros start prev sp Hp Hsp Hlt H; [discriminate|].
  simpl in H. apply Z.ltb_lt in Hlt as Hlt'. rewrite Hlt' in H.
  pose proof (chunk_end_lower text cs start Hcs) as He.
  set (e := chunk_end text cs start) in *.
  destruct (len text <=? e - ov) eqn:E2.
  - injection H as <-. apply Z.leb_le in E2. simpl.
    split; [lia|]. rewrite app_nil_r. apply slice_to_end; lia.
  - apply Z.leb_gt in E2.
    destruct (chunk_spans fuel text cs ov (e - ov)) as [sp'|] eqn:E; [|discriminate].
    injection H as <-.
    destruct (IH (e - ov) e sp') as [Hc Hn]; try lia; [assumption|].
    simpl. split; [repeat split; try lia; exact Hc|].
    rewrite Hn. apply slice_app_end; lia.
Qed.

(** The loop's iterations from a start are one list of spans, no other. *)
Lemma iterations_unique (text : str) (cs ov : Z) (sp1 : list (Z * Z)) :
  forall start sp2,
  iterations text cs ov start sp1 -> iterations text cs ov start sp2 -> sp1 = sp2.
Proof.
  induction sp1 as [|[s1 e1] r1 IH]; intros start [|[s2 e2] r2] H1 H2;
    try (now destruct H1); try (now destruct H2).
  cbn [iterations] in H1, H2.
  destruct H1 as (-> & _ & -> & H1), H2 as (-> & _ & -> & H2).
  f_equal. destruct r1 as [|p1 r1], r2 as [|p2 r2]; try reflexivity; try lia.
  destruct H1 as [_ H1], H2 as [_ H2]. exact (IH _ _ H1 H2).
Qed.

(** The spans computed are those of the loop's iterations. *)
Lemma chunk_spans_iterations (text : str) (cs ov : Z) :
  1 <= cs -> ov <= cs / 2 ->
  forall fuel start sp, 0 <= start < len text ->
  chunk_spans fuel text cs ov start = Some sp ->
  iterations text cs ov start sp.
Proof.
  intros Hcs Hov. induction fuel as [|fuel IH]; intros start sp Hs H; [discriminate|].
  simpl in H. destruct Hs as [H0 Hlt]. apply Z.ltb_lt in Hlt as Hlt'. rewrite Hlt' in H.
  pose proof (chunk_end_lower text cs start Hcs) as He.
  destruct (len text <=? chunk_end text cs start - ov) eqn:E2.
  - injection H as <-. apply Z.leb_le in E2. simpl. repeat split; auto.
  - apply Z.leb_gt in E2.
    destruct (chunk_spans fuel text cs ov (chunk_end text cs start - ov)) as [sp'|] eqn:E;
      [|discriminate].
    injection H as <-.
    assert (Hi : iterations text cs ov (chunk_end text cs start - ov) sp')
      by (apply (IH _ sp'); [lia | exact E]).
    destruct sp' as [|se sp']; [destruct Hi|].
    cbn [iterations]. repeat split; auto.
Qed.

(** With [1 <= chunk_size] and [overlap <= chunk_size // 2] the chunker
    returns, and [len text + 1] iterations are enough. *)
Lemma chunk_text_total (text : str) (cs ov : Z) :
  1 <= cs -> ov <= cs / 2 ->
  exists chunks, forall fuel, (Z.to_nat (len text) < fuel)%nat ->
    chunk_text fuel text cs ov = Some chunks.
Proof.
  intros Hcs Hov. unfold chunk_text. destruct (len text <=? cs); [eauto|].
  destruct (chunk_spans_total text cs ov Hcs Hov (S (Z.to_nat (len text))) 0)
    as [sp Hsp]; [rewrite Z.sub_0_r; lia|].
  exists ([] ++ span_chunks text sp). intros fuel Hf.
  rewrite chunk_loop_spans.
  rewrite (chunk_spans_fuel_mono text cs ov (S (Z.to_nat (len text))) fuel 0 sp);
    [reflexivity | lia | exact Hsp].
Qed.

End ChunkerFacts.


(** ** The model on concrete inputs *)
Module Runs.
Import PyStr Chunker Effects Rag Examples.

Example rfind_last_dot : rfind (lit "a.b.c") dot 0 5 = 3.
Proof. reflexivity. Qed.

Example rfind_none : rfind (lit "a.b.c") dot 2 3 = -1.
Proof. reflexivity. Qed.

Example rfind_negative_start : rfind (lit "a.b.c") dot (-2) 100 = 3.
Proof. reflexivity. Qed.

Example slice_negative : slice (lit "abcdef") 2 (-1) = lit "cde".
Proof. reflexivity. Qed.

Example strip_both_ends : strip (lit "  a b ") = lit "a b".
Proof. reflexivity. Qed.

(** The first chunk is cut at the raw boundary (its only space is not
    past the midpoint), the next two at a space past the midpoint, and the
    last runs to the end of the text. *)
Example chunk_text_boundaries :
  chunk_text 10 (lit "Hello world. This is a test.") 10 2
  = Some [lit "Hello worl"; lit "rld. This"; lit "is is a"; lit "a test."].
Proof. reflexivity. Qed.

(** A sentence end past the midpoint is where the chunk is cut. *)
Example chunk_text_sentence_end :
  chunk_text 10 (lit "Hello wor. abc def") 12 2
  = Some [lit "Hello wor."; lit "r. abc def"].
Proof. reflexivity. Qed.

(** Uploading a one-page document and asking about it: the answer has
    context, and its source is the uploaded file. *)
Example upload_then_ask :
  let st := {| st_index := Some {| ix_entries := []; ix_error := None |};
               st_db := {| db_rows := []; db_next_id := 1; db_error := None |};
               st_trace := [] |} in
  let (r, st1) := upload_document answering [] (lit "paris.pdf") 7 st in
  r = Ok (UploadOk (lit "Document 'paris.pdf' processed successfully") 1 1 31) /\
  fst (answer_question answering (lit "What is the capital of France?") 7 st1)
  = Ok {| answer := lit "Paris.";
          sources := [{| src_filename := lit "paris.pdf";
                         src_relevance_score := 0%float;
                         src_preview := lit "The capital of France is Paris." |}];
          has_context := true;
          chunks_used := Some 1 |}.
Proof. vm_compute. split; reflexivity. Qed.

(** The same question from another owner finds nothing. *)
Example upload_then_ask_other_owner :
  let st := {| st_index := Some {| ix_entries := []; ix_error := None |};
               st_db := {| db_rows := []; db_next_id := 1; db_error := None |};
               st_trace := [] |} in
  let (_, st1) := upload_document answering [] (lit "paris.pdf") 7 st in
  fst (answer_question answering (lit "What is the capital of France?") 8 st1)
  = Ok {| answer := no_information; sources := [];
          has_context := false; chunks_used := None |}.
Proof. vm_compute. reflexivity. Qed.

End Runs.

(** ** The chunker's properties *)
Module ChunkerSpec.
Import PyStr Chunker ChunkerSpans PyStrFacts ChunkerFacts.

Lemma covers_length (chunks : list str) (text : str) :
  covers chunks text ->
  (List.length text <= list_sum (List.map (@List.length char) chunks))%nat.
Proof.
  intros (spans & HF & <-). induction HF as [|s c spans chunks (p & ->) _ IH]; simpl.
  - lia.
  - rewrite !length_app. lia.
Qed.

Lemma span_chunks_nonempty (text : str) (spans : list (Z * Z)) :
  Forall (fun c => c <> []) (span_chunks text spans).
Proof.
  apply Forall_forall. intros c Hc. unfold span_chunks in Hc.
  apply filter_In in Hc as [_ Hc]. now apply truthy_nonempty.
Qed.

(** C4, as the code has it: a text no longer than [chunk_size] comes back
    as the one chunk, unchanged (it is not trimmed); the chunk is the
    trimmed text when the text is trimmed already, as the extractor's
    output is. *)
Theorem chunk_text_short (fuel : nat) (text : str) (cs ov : Z) :
  len text <= cs ->
  chunk_text fuel text cs ov = Some [text] /\
  (forall raw, text = strip raw -> chunk_text fuel text cs ov = Some [strip text]).
Proof.
  intros H. unfold chunk_text. apply Z.leb_le in H. rewrite H.
  split; [reflexivity|]. intros raw ->. now rewrite strip_idem.
Qed.

Lemma chunk_text_short_witness :
  len (lit " a") <= 1000 /\
  chunk_text 0 (lit " a") 1000 200 = Some [lit " a"].
Proof.
  split; [vm_compute; discriminate|].
  apply (chunk_text_short 0 (lit " a") 1000 200). vm_compute. discriminate.
Defined.

(** C4, as the specification states it, fails: the short text [" a"] is
    returned with its leading space. *)
Lemma chunk_text_short_not_trimmed :
  len (lit " a") <= default_chunk_size /\
  chunk_text 0 (lit " a") default_chunk_size default_overlap = Some [lit " a"] /\
  strip (lit " a") = lit "a" /\
  lit " a" <> strip (lit " a").
Proof. vm_compute. repeat split; discriminate. Qed.

(** C10, as the code has it: with [1 <= chunk_size] and
    [overlap <= chunk_size // 2] the loop finishes for every text, within
    [len text + 1] iterations, since each iteration moves [start] forward
    by at least [chunk_size // 2 + 1 - overlap >= 1]. *)
Theorem chunk_text_terminates (text : str) (cs ov : Z) :
  1 <= cs -> ov <= cs / 2 ->
  (exists chunks, forall fuel, (Z.to_nat (len text) < fuel)%nat ->
     chunk_text fuel text cs ov = Some chunks) /\
  (forall start,
     start + (cs / 2 + 1 - ov) <= chunk_end text cs start - ov /\
     1 <= cs / 2 + 1 - ov).
Proof.
  intros Hcs Hov. split.
  - now apply chunk_text_total.
  - intros start. pose proof (chunk_end_lower text cs start Hcs). lia.
Qed.

Lemma chunk_text_terminates_witness :
  (1 <= default_chunk_size /\ default_overlap <= default_chunk_size / 2) /\
  exists chunks, forall fuel, (Z.to_nat (len (lit "Hello. World")) < fuel)%nat ->
    chunk_text fuel (lit "Hello. World") default_chunk_size default_overlap
    = Some chunks.
Proof.
  split; [vm_compute; split; discriminate|].
  apply (chunk_text_terminates (lit "Hello. World") default_chunk_size default_overlap);
    vm_compute; discriminate.
Defined.

Lemma chunk_loop_stuck (fuel : nat) :
  chunk_loop fuel (lit "a") 0 0 0 [] = None.
Proof. induction fuel as [|fuel IH]; [reflexivity | exact IH]. Qed.

(** C10, as stated, fails: [chunk_size = 0] and [overlap = 0] satisfy
    [overlap <= chunk_size // 2], and on the text ["a"] the loop never
    finishes: [start] stays at 0. *)
Lemma chunk_text_zero_size_diverges :
  0 <= 0 / 2 /\
  ~ exists fuel chunks, chunk_text fuel (lit "a") 0 0 = Some chunks.
Proof.
  split; [vm_compute; discriminate|].
  intros (fuel & chunks & H). unfold chunk_text in H.
  change (len (lit "a") <=? 0) with false in H.
  rewrite chunk_loop_stuck in H. discriminate.
Qed.

(** C3, as the code has it: for a text longer than [chunk_size] (with
    [1 <= chunk_size] and [0 <= overlap <= chunk_size // 2]) the loop
    finishes; no returned chunk is empty; the returned chunks are the
    trimmed slices [text[start:end]] of the loop's iterations (the first
    starts at 0, each ends where the boundary search puts it, the next
    starts [overlap] before that end, and no start is negative), those
    that are empty once trimmed left out; each slice starts at or before
    the end of the one before; and the untrimmed slices cover the text:
    the parts of the slices past the previous slice's end concatenate to
    the text exactly. *)
Theorem chunk_text_raw_coverage (text : str) (cs ov : Z) :
  1 <= cs -> 0 <= ov <= cs / 2 -> cs < len text ->
  exists spans chunks,
    iterations text cs ov 0 spans /\
    (forall fuel, (Z.to_nat (len text) < fuel)%nat ->
       chunk_text fuel text cs ov = Some chunks) /\
    chunks = span_chunks text spans /\
    Forall (fun c => c <> []) chunks /\
    chained 0 spans /\
    List.concat (novel text 0 spans) = text.
Proof.
  intros Hcs Hov Hlen.
  destruct (chunk_spans_total text cs ov Hcs (proj2 Hov) (S (Z.to_nat (len text))) 0)
    as [sp Hsp]; [rewrite Z.sub_0_r; lia|].
  exists sp, (span_chunks text sp). repeat split.
  - apply (chunk_spans_iterations text cs ov Hcs (proj2 Hov)
             (S (Z.to_nat (len text))) 0 sp); [lia | exact Hsp].
  - intros fuel Hf. unfold chunk_text.
    apply Z.leb_gt in Hlen. rewrite Hlen. rewrite chunk_loop_spans.
    now rewrite (chunk_spans_fuel_mono text cs ov (S (Z.to_nat (len text))) fuel 0 sp) by (lia || exact Hsp).
  - apply span_chunks_nonempty.
  - eapply chunk_spans_cover with (start := 0); eauto; lia.
  - rewrite <- (slice_all text) at 2.
    eapply chunk_spans_cover with (start := 0); eauto; lia.
Qed.

Lemma chunk_text_raw_coverage_witness :
  (1 <= 10 /\ 0 <= 2 <= 10 / 2 /\ 10 < len (lit "Hello world. This is a test.")) /\
  exists spans chunks,
    iterations (lit "Hello world. This is a test.") 10 2 0 spans /\
    (forall fuel, (Z.to_nat (len (lit "Hello world. This is a test.")) < fuel)%nat ->
       chunk_text fuel (lit "Hello world. This is a test.") 10 2 = Some chunks) /\
    chunks = span_chunks (lit "Hello world. This is a test.") spans /\
    Forall (fun c => c <> []) chunks /\
    chained 0 spans /\
    List.concat (novel (lit "Hello world. This is a test.") 0 spans)
    = lit "Hello world. This is a test.".
Proof.
  split; [vm_compute; repeat split; discriminate|].
  apply (chunk_text_raw_coverage (lit "Hello world. This is a test.") 10 2);
    vm_compute; repeat split; discriminate.
Defined.

(** C3, as stated, fails: the chunks of ["abc def"] for [chunk_size = 4]
    are ["abc"] and ["def"]; the space between them is in no chunk, so no
    choice of spans within the chunks rebuilds the text. *)
Lemma chunk_text_loses_whitespace :
  4 < len (lit "abc def") /\
  chunk_text 3 (lit "abc def") 4 0 = Some [lit "abc"; lit "def"] /\
  ~ covers [lit "abc"; lit "def"] (lit "abc def").
Proof.
  split; [reflexivity|]. split; [reflexivity|].
  intros H. apply covers_length in H. vm_compute in H. lia.
Qed.

End ChunkerSpec.

(** ** The service's runs *)
Module RagFacts.
Import PyStr Chunker Effects Index Rag PyStrFacts ChunkerFacts.

Lemma traced_nil (st : State) : traced st [] = st.
Proof. destruct st. unfold traced. simpl. now rewrite app_nil_r. Qed.

Lemma traced_traced (st : State) (a b : list Event) :
  traced (traced st a) b = traced st (a ++ b).
Proof. unfold traced. simpl. now rewrite app_assoc. Qed.

Lemma emit_run (e : Event) (st : State) : emit e st = (Ok tt, traced st [e]).
Proof. reflexivity. Qed.

(** The chunker returns on its default arguments. *)
Lemma chunk_text_default_returns (text : str) :
  chunk_text (S (Z.to_nat (len text))) text default_chunk_size default_overlap
  = Some (chunk_text_default text).
Proof.
  destruct (chunk_text_total text default_chunk_size default_overlap) as [chunks H];
    [vm_compute; discriminate | vm_compute; discriminate |].
  unfold chunk_text_default. now rewrite H by lia.
Qed.

(** [get_embeddings] never raises: it maps each text to its vector, in
    order, and makes one embedding call per text. *)
Lemma embed_loop_run (env : Env) (texts : list str) :
  forall (embeddings : list vector) (st : State),
  embed_loop env texts embeddings st =
  (Ok (embeddings ++ List.map (embed_or_zero env) texts),
   traced st (List.map EvEmbed texts)).
Proof.
  induction texts as [|text rest IH]; intros embeddings st; simpl.
  - unfold ret. now rewrite app_nil_r, traced_nil.
  - unfold bind. rewrite emit_run, IH, traced_traced, <- app_assoc. reflexivity.
Qed.

Lemma get_embeddings_run (env : Env) (texts : list str) (st : State) :
  get_embeddings env texts st =
  (Ok (List.map (embed_or_zero env) texts), traced st (List.map EvEmbed texts)).
Proof. unfold get_embeddings. now rewrite embed_loop_run. Qed.

Lemma insert_desc_in (m x : Match) (l : list Match) :
  In x (insert_desc m l) -> x = m \/ In x l.
Proof.
  induction l as [|y r IH]; simpl.
  - intros [<-|[]]. now left.
  - destruct (PrimFloat.leb (m_score m) (m_score y)); simpl.
    + intros [<-|H]; [right; now left|]. destruct (IH H); auto.
    + intros [<-|[<-|H]]; auto.
Qed.

Lemma in_firstn {A} (n : nat) (x : A) (l : list A) : In x (firstn n l) -> In x l.
Proof.
  intros H. rewrite <- (firstn_skipn n l). apply in_or_app. now left.
Qed.

(** Ranking returns matches it was given. *)
Lemma rank_in (x : Match) (l : list Match) : In x (rank l) -> In x l.
Proof.
  induction l as [|m l IH]; simpl; [auto|].
  intros H. apply insert_desc_in in H as [->|H]; auto.
Qed.

(** A match of a successful query is an entry of the index that satisfies
    the filter. *)
Lemma query_matches (sim : vector -> vector -> float) (ix : VectorIndex)
    (v : vector) (f : Filter) (top_k : Z) (ms : list Match) (m : Match) :
  query sim ix v f top_k = Ok ms -> In m ms ->
  exists e, In e (ix_entries ix) /\ satisfies f e = true /\ m = to_match sim v e.
Proof.
  unfold query. destruct (ix_error ix); [discriminate|].
  intros [= <-] H. apply in_firstn, rank_in, in_map_iff in H as (e & <- & He).
  apply filter_In in He as [He Hs]. eauto.
Qed.

(** [search_documents] never raises. With an index that answers, it
    returns the chunks of the query's matches; without one, or with one
    that raises, nothing. *)
Lemma search_documents_run (env : Env) (query_text : str) (user_id top_k : Z)
    (st : State) :
  exists (ms : list Match) (st' : State),
    search_documents env query_text user_id top_k st
    = (Ok (List.map chunk_of_match ms), st') /\
    st_index st' = st_index st /\ st_db st' = st_db st /\
    (ms = [] \/
     exists ix, st_index st = Some ix /\
       query (similarity env) ix (embed_or_zero env query_text)
             (UserIdEq user_id) top_k = Ok ms).
Proof.
  unfold search_documents, try_except, bind, get_index.
  destruct (st_index st) as [ix|] eqn:Hix.
  - rewrite get_embeddings_run.
    change (List.map (embed_or_zero env) [query_text])
      with [embed_or_zero env query_text].
    cbv iota beta. rewrite emit_run. unfold lift.
    destruct (query (similarity env) ix (embed_or_zero env query_text)
                    (UserIdEq user_id) top_k) as [ms|msg] eqn:Hq.
    + exists ms. eexists. split; [reflexivity|]. simpl. eauto 6.
    + exists []. eexists. split; [reflexivity|]. simpl. auto.
  - exists [], st. unfold ret. simpl. auto.
Qed.

Lemma slice_prefix (t : str) (n : Z) :
  0 <= n <= len t -> slice t 0 n = firstn (Z.to_nat n) t.
Proof.
  intros H. rewrite slice_nonneg by lia.
  rewrite (Z.min_l n), (Z.min_l 0) by lia. simpl skipn. now rewrite Z.sub_0_r.
Qed.

Lemma source_of_previews (c : RelevantChunk) : previews (source_of c) c.
Proof.
  unfold previews, source_of. simpl. repeat split.
  - intros H. apply Z.ltb_ge in H. now rewrite H.
  - apply Z.ltb_lt in H. rewrite H. apply Z.ltb_lt in H.
    now rewrite slice_prefix by lia.
  - apply Z.ltb_lt in H. rewrite H. apply Z.ltb_lt in H.
    rewrite slice_prefix by lia. unfold len in *.
    rewrite length_app, length_firstn. change (List.length (lit "...")) with 3%nat. lia.
Qed.

Lemma sources_preview (chunks : list RelevantChunk) :
  Forall2 previews (List.map source_of chunks) chunks.
Proof.
  induction chunks; simpl; constructor; auto using source_of_previews.
Qed.

(** Building the text of the pages touches no state. *)
Lemma pages_text_state (pages : list (Exc str)) :
  forall (text : str) (st : State), snd (pages_text pages text st) = st.
Proof.
  induction pages as [|[page|msg] rest IH]; intros text st; simpl; auto.
Qed.

(** The extractor is one call to the outside, whatever its outcome. *)
Lemma extract_text_from_pdf_trace (env : Env) (pdf_content : list Byte.byte)
    (st : State) :
  snd (extract_text_from_pdf env pdf_content st) = traced st [EvExtract pdf_content].
Proof.
  unfold extract_text_from_pdf, try_except, bind. rewrite emit_run. unfold lift.
  destruct (pdf_pages env pdf_content) as [pages|msg]; [|reflexivity].
  pose proof (pages_text_state pages [] (traced st [EvExtract pdf_content])) as H.
  destruct (pages_text pages [] (traced st [EvExtract pdf_content])) as [[text|msg] st1];
    simpl in H; subst st1; [|reflexivity].
  destruct (negb (truthy (strip text))); reflexivity.
Qed.

(** What the body of [upload_document] returns when it returns: the
    success dict, with the number of chunks and the length of the text the
    extractor gave. *)
Lemma upload_body_returns (env : Env) (file_content : list Byte.byte)
    (filename : str) (user_id : Z) (st st' : State) (r : UploadResult) :
  upload_body env file_content filename user_id st = (Ok r, st') ->
  exists text st1 course_id,
    extract_text_from_pdf env file_content st = (Ok text, st1) /\
    r = UploadOk (lit "Document '" ++ filename ++ lit "' processed successfully")
                 course_id
                 (Z.of_nat (List.length (chunk_text_default text)))
                 (len text).
Proof.
  unfold upload_body, bind, get_index.
  destruct (st_index st) as [ix|]; [|discriminate].
  destruct (extract_text_from_pdf env file_content st) as [[text|msg] st1];
    [|discriminate].
  destruct (negb (truthy (strip text))); [discriminate|].
  rewrite get_embeddings_run.
  match goal with
  | |- context [upsert_batches ?bs ?s] => destruct (upsert_batches bs s) as [[[]|msg] st2]
  end; [|discriminate].
  unfold db_save, bind. rewrite emit_run. unfold get_db.
  destruct (db_error (st_db (traced st2 [EvCommit]))); [discriminate|].
  unfold set_db, ret. intros [= <- _]. eauto.
Qed.

End RagFacts.

(** ** The service's properties *)
Module RagSpec.
Import PyStr Chunker Effects Index Rag Examples PyStrFacts ChunkerFacts RagFacts.

(** C5: [get_embeddings] returns, for every list of texts, as many
    vectors as texts, in the texts' order (none for no text); a text whose
    embedding call raises gets the zero vector of dimension 768 and the
    batch goes on; and every vector has dimension 768, the embedding
    endpoint returning vectors of that dimension. *)
Theorem get_embeddings_shape (env : Env) (texts : list str) (st : State) :
  (forall text v, embed_content env text = Ok v -> List.length v = 768%nat) ->
  exists vs st',
    get_embeddings env texts st = (Ok vs, st') /\
    List.length vs = List.length texts /\
    (forall i text, nth_error texts i = Some text ->
       nth_error vs i = Some (match embed_content env text with
                              | Ok v => v
                              | Raise _ => repeat 0%float 768
                              end)) /\
    Forall (fun v => List.length v = 768%nat) vs /\
    (texts = [] -> vs = []).
Proof.
  intros Hdim. rewrite get_embeddings_run. do 2 eexists. split; [reflexivity|].
  repeat split.
  - apply length_map.
  - intros i text H. now apply map_nth_error with (f := embed_or_zero env).
  - apply Forall_forall. intros v Hv. apply in_map_iff in Hv as (text & <- & _).
    unfold embed_or_zero. destruct (embed_content env text) eqn:E.
    + eauto.
    + apply repeat_length.
  - now intros ->.
Qed.

Lemma get_embeddings_shape_witness :
  (forall text v, embed_content answering text = Ok v -> List.length v = 768%nat) /\
  exists vs st',
    get_embeddings answering [lit "Paris"; []] no_index = (Ok vs, st') /\
    List.length vs = 2%nat /\
    (forall i text, nth_error [lit "Paris"; []] i = Some text ->
       nth_error vs i = Some (match embed_content answering text with
                              | Ok v => v
                              | Raise _ => repeat 0%float 768
                              end)) /\
    Forall (fun v => List.length v = 768%nat) vs /\
    ([lit "Paris"; []] = [] -> vs = []).
Proof.
  assert (H : forall text v,
             embed_content answering text = Ok v -> List.length v = 768%nat).
  { intros text v.
    change (embed_content answering text)
      with (if truthy text then Ok (repeat 1%float dimension)
            else Raise (lit "empty content")).
    destruct (truthy text); [|discriminate].
    intros [= <-]. exact (repeat_length 1%float dimension). }
  split; [exact H|].
  exact (get_embeddings_shape answering [lit "Paris"; []] no_index H).
Defined.

(** C1: whatever the query text, the owner and [top_k], and whatever the
    index holds, [search_documents] returns the chunks of matches that
    are all entries of the index whose metadata owner id is the owner
    searched for. *)
Theorem search_documents_tenant_isolation (env : Env) (query_text : str)
    (user_id top_k : Z) (st : State) :
  exists ms st',
    search_documents env query_text user_id top_k st
    = (Ok (List.map chunk_of_match ms), st') /\
    Forall (fun m =>
              md_user_id (m_metadata m) = user_id /\
              exists ix e, st_index st = Some ix /\ In e (ix_entries ix) /\
                           m_id m = ie_id e /\ m_metadata m = ie_metadata e)
           ms.
Proof.
  destruct (search_documents_run env query_text user_id top_k st)
    as (ms & st' & Hrun & _ & _ & Hms).
  exists ms, st'. split; [exact Hrun|].
  destruct Hms as [->|(ix & Hix & Hq)]; [constructor|].
  apply Forall_forall. intros m Hm.
  destruct (query_matches _ _ _ _ _ _ _ Hq Hm) as (e & He & Hs & ->).
  simpl in Hs. apply Z.eqb_eq in Hs. split; [exact Hs|].
  exists ix, e. auto.
Qed.

(** C7: for an owner with no chunk in the index, [answer_question]
    returns, for every question, the fixed no-information message with
    [has_context] false and no sources, as a result and not as an error. *)
Theorem answer_question_no_chunks (env : Env) (question : str) (user_id : Z)
    (st : State) :
  (forall ix e, st_index st = Some ix -> In e (ix_entries ix) ->
                md_user_id (ie_metadata e) <> user_id) ->
  exists st',
    answer_question env question user_id st
    = (Ok {| answer := no_information; sources := [];
             has_context := false; chunks_used := None |}, st').
Proof.
  intros Hnone.
  destruct (search_documents_run env question user_id 3 st)
    as (ms & st' & Hrun & _ & _ & Hms).
  assert (ms = []) as ->.
  { destruct Hms as [->|(ix & Hix & Hq)]; [reflexivity|].
    destruct ms as [|m ms]; [reflexivity|]. exfalso.
    destruct (query_matches _ _ _ _ _ _ m Hq (or_introl eq_refl)) as (e & He & Hs & _).
    simpl in Hs. apply Z.eqb_eq in Hs. exact (Hnone ix e Hix He Hs). }
  exists st'. unfold answer_question, try_except, bind. now rewrite Hrun.
Qed.

Lemma answer_question_no_chunks_witness :
  (forall ix e, st_index two_owners = Some ix -> In e (ix_entries ix) ->
                md_user_id (ie_metadata e) <> 3) /\
  exists st',
    answer_question answering (lit "What is the capital of France?") 3 two_owners
    = (Ok {| answer := no_information; sources := [];
             has_context := false; chunks_used := None |}, st').
Proof.
  assert (H : forall ix e, st_index two_owners = Some ix -> In e (ix_entries ix) ->
                           md_user_id (ie_metadata e) <> 3).
  { intros ix e [= <-] [<-|[<-|[]]]; simpl; discriminate. }
  split; [exact H|].
  exact (answer_question_no_chunks answering
           (lit "What is the capital of France?") 3 two_owners H).
Defined.

(** C8: without an index handle, [upload_document] fails with the
    index-unavailable message and leaves the state as it was: no call has
    been made, so the extractor has not run. *)
Theorem upload_document_fails_fast (env : Env) (file_content : list Byte.byte)
    (filename : str) (user_id : Z) (st : State) :
  st_index st = None ->
  upload_document env file_content filename user_id st
  = (Ok (UploadFailed
           (lit "Error processing document: " ++
            lit "Pinecone index not available. Please check your Pinecone configuration.")),
     st) /\
  forall st', snd (upload_document env file_content filename user_id st) = st' ->
              ~ In (EvExtract file_content) (skipn (List.length (st_trace st)) (st_trace st')).
Proof.
  intros H.
  assert (E : upload_document env file_content filename user_id st
              = (Ok (UploadFailed
                       (lit "Error processing document: " ++
                        lit "Pinecone index not available. Please check your Pinecone configuration.")),
                 st)).
  { unfold upload_document, try_except, upload_body, bind, get_index.
    now rewrite H. }
  split; [exact E|].
  intros st' <-. rewrite E. simpl snd. rewrite skipn_all. intros [].
Qed.

Lemma upload_document_fails_fast_witness :
  st_index no_index = None /\
  upload_document answering [] (lit "notes.pdf") 1 no_index
  = (Ok (UploadFailed
           (lit "Error processing document: " ++
            lit "Pinecone index not available. Please check your Pinecone configuration.")),
     no_index).
Proof.
  split; [reflexivity|].
  apply (upload_document_fails_fast answering [] (lit "notes.pdf") 1 no_index).
  reflexivity.
Defined.

(** C2: [upload_document] returns for every input and never raises: its
    result is the success dict, carrying the document id, the number of
    chunks and the length of the extracted text, or the failure dict,
    whose message is the error's text after a fixed prefix. *)
Theorem upload_document_never_raises (env : Env) (file_content : list Byte.byte)
    (filename : str) (user_id : Z) (st : State) :
  exists r st',
    upload_document env file_content filename user_id st = (Ok r, st') /\
    match r with
    | UploadOk _ _ chunks_created text_length =>
        exists text st1,
          extract_text_from_pdf env file_content st = (Ok text, st1) /\
          chunk_text (S (Z.to_nat (len text))) text default_chunk_size default_overlap
          = Some (chunk_text_default text) /\
          chunks_created = Z.of_nat (List.length (chunk_text_default text)) /\
          text_length = len text
    | UploadFailed message =>
        exists e, message = lit "Error processing document: " ++ e
    end.
Proof.
  unfold upload_document, try_except.
  destruct (upload_body env file_content filename user_id st) as [[r|msg] st'] eqn:E.
  - exists r, st'. split; [reflexivity|].
    apply upload_body_returns in E as (text & st1 & id & Hx & ->).
    exists text, st1. auto using chunk_text_default_returns.
  - do 2 eexists. split; [reflexivity|]. simpl. eauto.
Qed.

(** C6, as the code has it: when retrieval produced matches and the call
    to the language model raises, or its response carries no text,
    [answer_question] returns the apology followed by the error's text,
    with no sources and [has_context] false. *)
Theorem answer_question_model_failure (env : Env) (question : str) (user_id : Z)
    (st st1 : State) (chunks : list RelevantChunk) (msg : str) :
  search_documents env question user_id 3 st = (Ok chunks, st1) ->
  chunks <> [] ->
  generate_content env (prompt_of (context_of chunks) question) = Raise msg \/
  generate_content env (prompt_of (context_of chunks) question) = Ok (NoText msg) ->
  answer_question env question user_id st
  = (Ok {| answer := apology ++ msg; sources := [];
           has_context := false; chunks_used := None |},
     traced st1 [EvGenerate (prompt_of (context_of chunks) question)]).
Proof.
  intros Hs Hne Hg. unfold answer_question, try_except, bind. rewrite Hs.
  destruct chunks as [|c chunks]; [congruence|].
  rewrite emit_run. unfold lift. destruct Hg as [-> | ->]; reflexivity.
Qed.

Lemma answer_question_model_failure_witness :
  (exists chunks st1,
     search_documents silent (lit "capital?") 1 3 two_owners = (Ok chunks, st1) /\
     chunks <> [] /\
     generate_content silent (prompt_of (context_of chunks) (lit "capital?"))
     = Ok (NoText (lit "no valid Part"))) /\
  fst (answer_question silent (lit "capital?") 1 two_owners)
  = Ok {| answer := apology ++ lit "no valid Part"; sources := [];
          has_context := false; chunks_used := None |}.
Proof.
  destruct (search_documents silent (lit "capital?") 1 3 two_owners)
    as [[[|c chunks]|msg] st1] eqn:E; try (vm_compute in E; discriminate).
  split.
  - exists (c :: chunks), st1. repeat split; discriminate.
  - rewrite (answer_question_model_failure silent (lit "capital?") 1 two_owners st1
               (c :: chunks) (lit "no valid Part") E);
      [reflexivity | discriminate | right; reflexivity].
Defined.

(** C6, as stated, fails: with matches found and a response without text,
    the answer is the apology with the error's text, but [has_context] is
    false and the sources are gone. *)
Lemma answer_question_model_failure_drops_context :
  (exists chunks st1,
     search_documents silent (lit "capital?") 1 3 two_owners = (Ok chunks, st1) /\
     chunks <> []) /\
  fst (answer_question silent (lit "capital?") 1 two_owners)
  = Ok {| answer := apology ++ lit "no valid Part"; sources := [];
          has_context := false; chunks_used := None |}.
Proof.
  split; [|vm_compute; reflexivity].
  destruct (search_documents silent (lit "capital?") 1 3 two_owners)
    as [[[|c chunks]|msg] st1] eqn:E; try (vm_compute in E; discriminate).
  exists (c :: chunks), st1. split; [reflexivity | discriminate].
Qed.

(** C9, as the code has it: in every answer with context, each source
    carries its match's filename and similarity score, and a preview that
    is the chunk's text when that has at most 200 characters, and else its
    first 200 characters followed by three dots (203 characters). *)
Theorem answer_question_sources (env : Env) (question : str) (user_id : Z)
    (st st' : State) (a : Answer) :
  answer_question env question user_id st = (Ok a, st') ->
  has_context a = true ->
  exists chunks st1,
    search_documents env question user_id 3 st = (Ok chunks, st1) /\
    chunks <> [] /\
    Forall2 previews (sources a) chunks.
Proof.
  unfold answer_question, try_except, bind. intros H Hc.
  destruct (search_documents env question user_id 3 st) as [[chunks|msg] st1].
  - exists chunks, st1. destruct chunks as [|c chunks].
    + injection H as <- _. discriminate.
    + rewrite emit_run in H. unfold lift in H.
      destruct (generate_content env _) as [[text|msg]|msg];
        injection H as <- _; try discriminate.
      repeat split; [discriminate|]. apply (sources_preview (c :: chunks)).
  - injection H as <- _. discriminate.
Qed.

Lemma answer_question_sources_witness :
  (fst (answer_question answering (lit "capital?") 1 two_owners)
   = Ok {| answer := lit "Paris.";
           sources := [{| src_filename := lit "notes.pdf";
                          src_relevance_score := 0%float;
                          src_preview := firstn 200 long_text ++ lit "..." |}];
           has_context := true;
           chunks_used := Some 1 |}) /\
  exists chunks st1,
    search_documents answering (lit "capital?") 1 3 two_owners = (Ok chunks, st1) /\
    chunks <> [] /\
    Forall2 previews
      [{| src_filename := lit "notes.pdf";
          src_relevance_score := 0%float;
          src_preview := firstn 200 long_text ++ lit "..." |}]
      chunks.
Proof.
  split; [vm_compute; reflexivity|].
  apply (answer_question_sources answering (lit "capital?") 1 two_owners
           (snd (answer_question answering (lit "capital?") 1 two_owners))
           {| answer := lit "Paris.";
              sources := [{| src_filename := lit "notes.pdf";
                             src_relevance_score := 0%float;
                             src_preview := firstn 200 long_text ++ lit "..." |}];
              has_context := true;
              chunks_used := Some 1 |});
    [vm_compute; reflexivity | reflexivity].
Defined.

(** C9, as stated, fails: the preview of a chunk of 201 characters is not
    its first 200 characters; it has 203. *)
Lemma answer_question_preview_exceeds_200 :
  fst (answer_question answering (lit "capital?") 1 two_owners)
  = Ok {| answer := lit "Paris.";
          sources := [{| src_filename := lit "notes.pdf";
                         src_relevance_score := 0%float;
                         src_preview := firstn 200 long_text ++ lit "..." |}];
          has_context := true;
          chunks_used := Some 1 |} /\
  len (firstn 200 long_text ++ lit "...") = 203 /\
  firstn 200 long_text ++ lit "..." <> slice long_text 0 200.
Proof.
  split; [vm_compute; reflexivity|]. split; [vm_compute; reflexivity|].
  intros H. apply (f_equal (@List.length char)) in H. vm_compute in H. discriminate.
Qed.

End RagSpec.

(** ** More about the chunker *)
Module ChunkerMore.
Import PyStr Chunker ChunkerSpans PyStrFacts ChunkerFacts.

Lemma rindex_bounds (c : char) (l : str) :
  forall i acc, rindex c l i acc = acc \/ i <= rindex c l i acc < i + len l.
Proof.
  induction l as [|x r IH]; intros i acc; simpl; [now left|].
  unfold len in *. simpl List.length.
  destruct (IH (i + 1) (if N.eqb x c then i else acc)) as [H|H].
  - rewrite H. destruct (N.eqb x c); [right; lia | now left].
  - right. lia.
Qed.

Lemma slice_length (t : str) (a b : Z) :
  len (slice t a b) <= Z.max 0 (adjust (len t) b - adjust (len t) a).
Proof.
  unfold slice, len at 1. rewrite length_firstn. lia.
Qed.

(** [rfind] answers [-1] or a position inside the range searched. *)
Lemma rfind_bounds (t : str) (c : char) (a b : Z) :
  rfind t c a b = -1 \/
  adjust (len t) a <= rfind t c a b < adjust (len t) b.
Proof.
  unfold rfind. destruct (adjust (len t) b - adjust (len t) a <? 1) eqn:E; [now left|].
  apply Z.ltb_ge in E.
  destruct (rindex_bounds c (slice t a b) (adjust (len t) a) (-1)) as [H|H];
    [now left|].
  right. pose proof (slice_length t a b). lia.
Qed.

(** No chunk ends past the prospective end. *)
Lemma chunk_end_upper (text : str) (cs start : Z) :
  0 <= start + cs -> chunk_end text cs start <= start + cs.
Proof.
  intros H. unfold chunk_end.
  destruct (start + cs <? len text); [|lia].
  pose proof (len_nonneg text) as Hn.
  assert (Ha : adjust (len text) (start + cs) <= start + cs)
    by (rewrite adjust_nonneg by lia; lia).
  destruct (negb (rfind text dot start (start + cs) =? -1) &&
            (start + cs / 2 <? rfind text dot start (start + cs)))%bool eqn:E1.
  - apply andb_true_iff in E1 as [E1 _]. apply negb_true_iff, Z.eqb_neq in E1.
    destruct (rfind_bounds text dot start (start + cs)); [congruence | lia].
  - destruct (negb (rfind text space start (start + cs) =? -1) &&
              (start + cs / 2 <? rfind text space start (start + cs)))%bool eqn:E2.
    + apply andb_true_iff in E2 as [E2 _]. apply negb_true_iff, Z.eqb_neq in E2.
      destruct (rfind_bounds text space start (start + cs)); [congruence | lia].
    + lia.
Qed.

(** The spans of the loop start inside the text and are at most
    [chunk_size] long. *)
Lemma chunk_spans_bounds (text : str) (cs ov : Z) :
  1 <= cs -> ov <= cs / 2 ->
  forall fuel start sp, 0 <= start ->
  chunk_spans fuel text cs ov start = Some sp ->
  Forall (fun se => 0 <= fst se < len text /\ fst se < snd se <= fst se + cs) sp.
Proof.
  intros Hcs Hov. induction fuel as [|fuel IH]; intros start sp H0 H; [discriminate|].
  simpl in H. destruct (start <? len text) eqn:E; [|injection H as <-; constructor].
  apply Z.ltb_lt in E.
  pose proof (chunk_end_lower text cs start Hcs) as Hl.
  pose proof (chunk_end_upper text cs start ltac:(lia)) as Hu.
  assert (Hhalf : 0 <= cs / 2) by (apply Z.div_pos; lia).
  destruct (len text <=? chunk_end text cs start - ov).
  - injection H as <-. constructor; [simpl; lia | constructor].
  - destruct (chunk_spans fuel text cs ov (chunk_end text cs start - ov)) as [sp'|] eqn:E';
      [|discriminate].
    injection H as <-. constructor; [simpl; lia|].
    apply (IH (chunk_end text cs start - ov)); [lia | exact E'].
Qed.

Lemma strip_length (t : str) : len (strip t) <= len t.
Proof.
  unfold strip, rstrip, len. rewrite length_rev.
  pose proof (lstrip_length (rev (lstrip t))) as H1. rewrite length_rev in H1.
  pose proof (lstrip_length t). lia.
Qed.

(** Every position from [prev] on lies in one of the spans. *)
Lemma chunk_spans_reach (text : str) (cs ov : Z) :
  1 <= cs -> 0 <= ov <= cs / 2 ->
  forall fuel start prev sp,
  0 <= start -> start <= prev <= start + ov -> start < len text ->
  chunk_spans fuel text cs ov start = Some sp ->
  forall i, prev <= i < len text ->
  exists se, In se sp /\ 0 <= fst se <= i /\ i < snd se.
Proof.
  intros Hcs Hov. induction fuel as [|fuel IH];
    intros start prev sp H0 Hp Hlt H i Hi; [discriminate|].
  simpl in H. apply Z.ltb_lt in Hlt as Hlt'. rewrite Hlt' in H.
  pose proof (chunk_end_lower text cs start Hcs) as He.
  set (e := chunk_end text cs start) in *.
  destruct (len text <=? e - ov) eqn:E2.
  - injection H as <-. apply Z.leb_le in E2.
    exists (start, e). simpl. repeat split; auto; lia.
  - apply Z.leb_gt in E2.
    destruct (chunk_spans fuel text cs ov (e - ov)) as [sp'|] eqn:E; [|discriminate].
    injection H as <-.
    destruct (Z.lt_ge_cases i e) as [Hie|Hie].
    + exists (start, e). simpl. repeat split; auto; lia.
    + destruct (IH (e - ov) e sp' ltac:(lia) ltac:(lia) E2 E i ltac:(lia))
        as (se & Hin & Hse).
      exists se. split; [now right | exact Hse].
Qed.

Lemma slice_skipn (t : str) (a b : Z) :
  0 <= a -> exists k, slice t a b = firstn k (skipn (Z.to_nat a) t).
Proof.
  intros Ha. destruct (Z.le_gt_cases a (len t)) as [H|H].
  - destruct (Z.le_gt_cases 0 b) as [Hb|Hb].
    + rewrite slice_nonneg by lia. rewrite (Z.min_l a) by lia. eauto.
    + unfold slice. pose proof (len_nonneg t).
      rewrite (adjust_nonneg (len t) a) by lia. rewrite (Z.min_l a) by lia. eauto.
  - exists 0%nat. unfold slice. pose proof (len_nonneg t).
    rewrite (adjust_nonneg (len t) a) by lia. rewrite (Z.min_r a) by lia.
    rewrite !skipn_all2 by (unfold len in *; lia). now rewrite !firstn_nil.
Qed.

(** The character at position [i] of the text is at position [i - a] of
    a slice that holds the position. *)
Lemma nth_error_slice (t : str) (a b : Z) (i : nat) (c : char) :
  0 <= a <= Z.of_nat i -> Z.of_nat i < b ->
  nth_error t i = Some c ->
  nth_error (slice t a b) (i - Z.to_nat a) = Some c.
Proof.
  intros Ha Hb Hc.
  assert (Hi : (i < List.length t)%nat) by (apply nth_error_Some; congruence).
  pose proof (len_nonneg t). unfold len in *.
  rewrite slice_nonneg by lia. fold (len t). unfold len.
  rewrite nth_error_firstn, nth_error_skipn.
  replace (Z.to_nat (Z.min a (Z.of_nat (List.length t))) +
           (i - Z.to_nat a))%nat with i by lia.
  destruct (Nat.ltb_spec (i - Z.to_nat a)
              (Z.to_nat (Z.min b (Z.of_nat (List.length t)) -
                         Z.min a (Z.of_nat (List.length t))))); [exact Hc | lia].
Qed.

(** A part of a slice is a slice. *)
Lemma slice_middle (t l m r : str) (a b : Z) :
  0 <= a -> slice t a b = l ++ m ++ r ->
  m = slice t (a + len l) (a + len l + len m).
Proof.
  intros Ha H. destruct (slice_skipn t a b Ha) as [k Hk]. rewrite Hk in H.
  assert (Hs : skipn (Z.to_nat a) t = l ++ m ++ r ++ skipn k (skipn (Z.to_nat a) t)).
  { rewrite <- (firstn_skipn k (skipn (Z.to_nat a) t)) at 1. rewrite H.
    now rewrite <- !app_assoc. }
  assert (Hlens : (List.length t - Z.to_nat a
                   = List.length l + (List.length m +
                       (List.length r + List.length (skipn k (skipn (Z.to_nat a) t)))))%nat).
  { apply (f_equal (@List.length char)) in Hs.
    now rewrite length_skipn, !length_app in Hs. }
  clear H Hk. unfold len in *. rewrite slice_nonneg by lia. unfold len.
  destruct (Z.le_gt_cases a (Z.of_nat (List.length t))) as [Hle|Hgt].
  - rewrite !Z.min_l by lia.
    replace (Z.to_nat (a + Z.of_nat (List.length l)))
      with (Z.to_nat a + List.length l)%nat by lia.
    rewrite PyStrFacts.skipn_add, Hs, skipn_app, skipn_all, Nat.sub_diag. simpl.
    replace (Z.to_nat (a + Z.of_nat (List.length l) + Z.of_nat (List.length m) -
                       (a + Z.of_nat (List.length l))))
      with (List.length m) by lia.
    now rewrite firstn_app, firstn_all, Nat.sub_diag, firstn_0, app_nil_r.
  - assert (List.length m = 0)%nat by lia.
    destruct m; [|discriminate]. rewrite !Z.min_r by lia.
    now rewrite Z.sub_diag.
Qed.

Lemma all_space_in (l : str) (c : char) :
  forallb is_space l = true -> In c l -> is_space c = true.
Proof. intros H. now apply forallb_forall. Qed.

(** X1: with [1 <= chunk_size] and [overlap <= chunk_size // 2], no
    returned chunk is longer than [chunk_size]. *)
Theorem chunk_text_chunk_size (fuel : nat) (text : str) (cs ov : Z)
    (chunks : list str) :
  1 <= cs -> ov <= cs / 2 ->
  chunk_text fuel text cs ov = Some chunks ->
  Forall (fun c => len c <= cs) chunks.
Proof.
  intros Hcs Hov. unfold chunk_text.
  destruct (len text <=? cs) eqn:E.
  - intros [= <-]. apply Z.leb_le in E. now repeat constructor.
  - rewrite chunk_loop_spans.
    destruct (chunk_spans fuel text cs ov 0) as [sp|] eqn:Hsp; [|discriminate].
    intros [= <-]. simpl app.
    pose proof (chunk_spans_bounds text cs ov Hcs Hov fuel 0 sp ltac:(lia) Hsp) as Hb.
    apply Forall_forall. intros c Hc. unfold span_chunks in Hc.
    apply filter_In in Hc as [Hc _]. apply in_map_iff in Hc as ([s e] & <- & Hin).
    rewrite Forall_forall in Hb. specialize (Hb _ Hin). simpl in *.
    pose proof (strip_length (slice text s e)).
    pose proof (slice_length text s e) as Hsl. pose proof (len_nonneg text).
    rewrite !adjust_nonneg in Hsl by lia. lia.
Qed.

Lemma chunk_text_chunk_size_witness :
  (1 <= 10 /\ 2 <= 10 / 2 /\
   chunk_text 10 (lit "Hello world. This is a test.") 10 2
   = Some [lit "Hello worl"; lit "rld. This"; lit "is is a"; lit "a test."]) /\
  Forall (fun c => len c <= 10)
         [lit "Hello worl"; lit "rld. This"; lit "is is a"; lit "a test."].
Proof.
  split; [vm_compute; repeat split; discriminate|].
  apply (chunk_text_chunk_size 10 (lit "Hello world. This is a test.") 10 2);
    [vm_compute; discriminate | vm_compute; discriminate | reflexivity].
Defined.

(** X2: whatever the chunk size and the overlap, when the text is longer
    than [chunk_size] and the loop returns, every returned chunk is
    non-empty and has no whitespace at either end. *)
Theorem chunk_text_chunks_trimmed (fuel : nat) (text : str) (cs ov : Z)
    (chunks : list str) :
  cs < len text ->
  chunk_text fuel text cs ov = Some chunks ->
  Forall (fun c => c <> [] /\ strip c = c) chunks.
Proof.
  intros Hlen. unfold chunk_text. apply Z.leb_gt in Hlen. rewrite Hlen.
  rewrite chunk_loop_spans.
  destruct (chunk_spans fuel text cs ov 0) as [sp|]; [|discriminate].
  intros [= <-]. simpl app. apply Forall_forall. intros c Hc.
  unfold span_chunks in Hc. apply filter_In in Hc as [Hc Ht].
  apply in_map_iff in Hc as (se & <- & _).
  split; [now apply truthy_nonempty | apply strip_idem].
Qed.

Lemma chunk_text_chunks_trimmed_witness :
  (4 < len (lit "abc  def") /\
   chunk_text 5 (lit "abc  def") 4 0 = Some [lit "abc"; lit "de"; lit "f"]) /\
  Forall (fun c => c <> [] /\ strip c = c) [lit "abc"; lit "de"; lit "f"].
Proof.
  split; [vm_compute; split; reflexivity|].
  apply (chunk_text_chunks_trimmed 5 (lit "abc  def") 4 0);
    [reflexivity | reflexivity].
Defined.

(** X3: with [1 <= chunk_size] and [0 <= overlap <= chunk_size // 2],
    every character of the text that is not whitespace is kept: its
    position lies inside a slice [text[a:b]] that is one of the returned
    chunks. *)
Theorem chunk_text_keeps_nonspace (fuel : nat) (text : str) (cs ov : Z)
    (chunks : list str) (i : nat) (c : char) :
  1 <= cs -> 0 <= ov <= cs / 2 ->
  chunk_text fuel text cs ov = Some chunks ->
  nth_error text i = Some c -> is_space c = false ->
  exists a b, 0 <= a <= Z.of_nat i /\ Z.of_nat i < b /\ In (slice text a b) chunks.
Proof.
  intros Hcs Hov Hrun Hc Hsp.
  assert (Hi : (i < List.length text)%nat) by (apply nth_error_Some; congruence).
  unfold chunk_text in Hrun. destruct (len text <=? cs) eqn:E.
  - injection Hrun as <-. exists 0, (len text). rewrite slice_all.
    unfold len. repeat split; try lia. now left.
  - apply Z.leb_gt in E. rewrite chunk_loop_spans in Hrun.
    destruct (chunk_spans fuel text cs ov 0) as [sp|] eqn:Hspans; [|discriminate].
    injection Hrun as <-. simpl app.
    destruct (chunk_spans_reach text cs ov Hcs Hov fuel 0 0 sp
                ltac:(lia) ltac:(lia) ltac:(lia) Hspans (Z.of_nat i))
      as ([s e] & Hin & Hs & He); [unfold len; lia|]. simpl in Hs, He.
    pose proof (nth_error_slice text s e i c Hs He Hc) as Hn.
    destruct (strip_spec (slice text s e)) as (l & r & Hd & Hl & Hr).
    rewrite Hd in Hn.
    set (m := strip (slice text s e)) in *.
    set (k := (i - Z.to_nat s)%nat) in *.
    assert (Hk : (List.length l <= k < List.length l + List.length m)%nat).
    { destruct (Nat.lt_ge_cases k (List.length l)) as [H1|H1].
      - rewrite nth_error_app1 in Hn by exact H1.
        apply nth_error_In, (all_space_in l c Hl) in Hn. congruence.
      - split; [exact H1|]. rewrite nth_error_app2 in Hn by exact H1.
        destruct (Nat.lt_ge_cases (k - List.length l) (List.length m)) as [H2|H2]; [lia|].
        rewrite nth_error_app2 in Hn by exact H2.
        apply nth_error_In, (all_space_in r c Hr) in Hn. congruence. }
    exists (s + len l), (s + len l + len m).
    rewrite <- (slice_middle text l m r s e ltac:(lia) Hd).
    unfold len. subst k. repeat split; try lia.
    unfold span_chunks. apply filter_In. split.
    + apply in_map_iff. exists (s, e). split; [reflexivity | exact Hin].
    + apply truthy_nonempty. intros Hm. rewrite Hm in Hk. simpl in Hk. lia.
Qed.

Lemma chunk_text_keeps_nonspace_witness :
  (1 <= 4 /\ 0 <= 0 <= 4 / 2 /\
   chunk_text 5 (lit "abc  def") 4 0 = Some [lit "abc"; lit "de"; lit "f"] /\
   nth_error (lit "abc  def") 6 = Some 101%N /\ is_space 101%N = false) /\
  exists a b, 0 <= a <= 6 /\ 6 < b /\
              In (slice (lit "abc  def") a b) [lit "abc"; lit "de"; lit "f"].
Proof.
  split; [vm_compute; repeat split; discriminate|].
  apply (chunk_text_keeps_nonspace 5 (lit "abc  def") 4 0
           [lit "abc"; lit "de"; lit "f"] 6 101%N);
    try reflexivity; vm_compute; repeat split; discriminate.
Defined.

End ChunkerMore.

(** ** More about the service's runs *)
Module RagMoreFacts.
Import PyStr Chunker ChunkerSpans Effects Index Rag RagRuns.
Import PyStrFacts ChunkerFacts RagFacts.

Lemma pages_text_run (pages : list (Exc str)) :
  forall text st, pages_text pages text st = (pages_joined pages text, st).
Proof.
  induction pages as [|[page|msg] rest IH]; intros text st; simpl; auto.
Qed.

(** What a run of the extractor is, by the reader's answer. *)
Lemma extract_text_from_pdf_run (env : Env) (pdf_content : list Byte.byte)
    (st : State) :
  extract_text_from_pdf env pdf_content st =
  (match pdf_pages env pdf_content with
   | Raise e => Raise (lit "Error extracting text from PDF: " ++ e)
   | Ok pages =>
       match pages_joined pages [] with
       | Raise e => Raise (lit "Error extracting text from PDF: " ++ e)
       | Ok text =>
           if truthy (strip text) then Ok (strip text)
           else Raise (lit "Error extracting text from PDF: " ++
                       lit "No readable text found in PDF")
       end
   end, traced st [EvExtract pdf_content]).
Proof.
  unfold extract_text_from_pdf, try_except, bind. rewrite emit_run. unfold lift.
  destruct (pdf_pages env pdf_content) as [pages|msg]; [|reflexivity].
  rewrite pages_text_run.
  destruct (pages_joined pages []) as [text|msg]; [|reflexivity].
  destruct (truthy (strip text)); reflexivity.
Qed.

Lemma str_eqb_eq (a b : str) : str_eqb a b = true <-> a = b.
Proof.
  revert b. induction a as [|x a IH]; intros [|y b]; simpl; split;
    try congruence; try discriminate.
  - intros H. apply andb_true_iff in H as [H1 H2].
    apply N.eqb_eq in H1. apply IH in H2. congruence.
  - intros [= -> ->]. rewrite N.eqb_refl. now apply IH.
Qed.

Lemma put_in (e x : IndexEntry) (l : list IndexEntry) :
  In x (put e l) -> x = e \/ In x l.
Proof.
  induction l as [|y r IH]; simpl.
  - intros [<-|[]]. now left.
  - destruct (str_eqb (ie_id y) (ie_id e)); simpl.
    + intros [<-|H]; auto.
    + intros [<-|H]; auto. destruct (IH H); auto.
Qed.

Lemma put_all_in (vs : list IndexEntry) :
  forall l x, In x (fold_left (fun l e => put e l) vs l) -> In x vs \/ In x l.
Proof.
  induction vs as [|v vs IH]; intros l x; simpl; [auto|].
  intros H. destruct (IH _ _ H) as [H1|H1]; [auto|].
  destruct (put_in _ _ _ H1) as [->|H2]; auto.
Qed.

(** Once an id is in the index, it stays. *)
Lemma put_keeps_id (e : IndexEntry) (l : list IndexEntry) (id : str) :
  In id (List.map ie_id l) -> In id (List.map ie_id (put e l)).
Proof.
  induction l as [|y r IH]; simpl; [tauto|].
  destruct (str_eqb (ie_id y) (ie_id e)) eqn:E; simpl.
  - apply str_eqb_eq in E. intros [<-|H]; auto.
  - intros [<-|H]; auto.
Qed.

Lemma put_has_id (e : IndexEntry) (l : list IndexEntry) :
  In (ie_id e) (List.map ie_id (put e l)).
Proof.
  induction l as [|y r IH]; simpl; [auto|].
  destruct (str_eqb (ie_id y) (ie_id e)); simpl; auto.
Qed.

Lemma put_all_ids (vs : list IndexEntry) :
  forall l id,
  In id (List.map ie_id vs) \/ In id (List.map ie_id l) ->
  In id (List.map ie_id (fold_left (fun l e => put e l) vs l)).
Proof.
  induction vs as [|v vs IH]; intros l id; simpl; [tauto|].
  intros [[<-|H]|H]; apply IH.
  - right. apply put_has_id.
  - now left.
  - right. now apply put_keeps_id.
Qed.

(** The batches are the vectors, cut in pieces. *)
Lemma batches_concat (n : nat) :
  forall fuel vs, (List.length vs <= fuel)%nat ->
  List.concat (batches fuel (S n) vs) = vs.
Proof.
  induction fuel as [|fuel IH]; intros vs H.
  - destruct vs; [reflexivity | simpl in H; lia].
  - destruct vs as [|v vs]; [reflexivity|].
    cbn [batches List.concat]. rewrite IH.
    + apply firstn_skipn.
    + rewrite length_skipn. simpl in *. lia.
Qed.

Lemma batches_size (n : nat) :
  forall fuel vs, Forall (fun b => (List.length b <= n)%nat) (batches fuel n vs).
Proof.
  induction fuel as [|fuel IH]; intros vs; [constructor|].
  destruct vs as [|v vs]; [constructor|].
  cbn [batches]. constructor; [apply firstn_le_length | apply IH].
Qed.

Lemma upsert_batches_run (bs : list (list IndexEntry)) :
  forall st ix, st_index st = Some ix -> ix_error ix = None ->
  upsert_batches bs st = (Ok tt, upserted st ix bs).
Proof.
  induction bs as [|b bs IH]; intros st ix Hix Herr.
  - unfold upserted. simpl. unfold ret. rewrite app_nil_r.
    destruct st as [i d t], ix as [es er]. simpl in *. now subst.
  - simpl. unfold bind, get_index. rewrite Hix, emit_run. unfold lift, upsert.
    rewrite Herr. unfold set_index.
    erewrite IH; [|reflexivity|reflexivity].
    unfold upserted. cbn [st_index st_db st_trace ix_entries traced].
    cbn [List.concat List.map]. now rewrite fold_left_app, <- app_assoc.
Qed.

Lemma upsert_batches_nil (st : State) : upsert_batches [] st = (Ok tt, st).
Proof. reflexivity. Qed.

(** An index that does not answer stops the first batch. *)
Lemma upsert_batches_down (b : list IndexEntry) (bs : list (list IndexEntry))
    (st : State) (ix : VectorIndex) (msg : str) :
  st_index st = Some ix -> ix_error ix = Some msg ->
  upsert_batches (b :: bs) st = (Raise msg, traced st [EvUpsert (List.length b)]).
Proof.
  intros Hix Herr. simpl. unfold bind, get_index. rewrite Hix, emit_run.
  unfold lift, upsert. now rewrite Herr.
Qed.

(** The text the extractor returns is not empty and is trimmed. *)
Lemma extract_text_from_pdf_ok (env : Env) (pdf_content : list Byte.byte)
    (st st1 : State) (text : str) :
  extract_text_from_pdf env pdf_content st = (Ok text, st1) ->
  text <> [] /\ strip text = text /\ st1 = traced st [EvExtract pdf_content].
Proof.
  rewrite extract_text_from_pdf_run.
  destruct (pdf_pages env pdf_content) as [pages|msg]; [|discriminate].
  destruct (pages_joined pages []) as [raw|msg]; [|discriminate].
  destruct (truthy (strip raw)) eqn:E; [|discriminate].
  intros [= <- <-]. repeat split.
  - now apply truthy_nonempty.
  - apply strip_idem.
Qed.

(** The run of an upload whose extraction succeeds on an index that
    answers: the vectors go into the index, and the outcome is the
    commit's. *)
Lemma upload_document_indexed (env : Env) (file_content : list Byte.byte)
    (filename : str) (user_id : Z) (st st1 : State) (ix : VectorIndex) (text : str) :
  st_index st = Some ix -> ix_error ix = None ->
  extract_text_from_pdf env file_content st = (Ok text, st1) ->
  let vectors := upload_vectors env filename user_id text in
  let index' := Some {| ix_entries := fold_left (fun l e => put e l) vectors (ix_entries ix);
                        ix_error := None |} in
  let trace' := st_trace st ++ upload_trace env file_content filename user_id text in
  upload_document env file_content filename user_id st =
  match db_error (st_db st) with
  | None =>
      (Ok (UploadOk (lit "Document '" ++ filename ++ lit "' processed successfully")
                    (db_next_id (st_db st))
                    (Z.of_nat (List.length (chunk_text_default text)))
                    (len text)),
       {| st_index := index';
          st_db := {| db_rows := db_rows (st_db st) ++
                        [material_row env file_content filename user_id text
                                      (db_next_id (st_db st))];
                      db_next_id := db_next_id (st_db st) + 1;
                      db_error := None |};
          st_trace := trace' |})
  | Some msg =>
      (Ok (UploadFailed (lit "Error processing document: " ++ msg)),
       {| st_index := index'; st_db := st_db st; st_trace := trace' |})
  end.
Proof.
  intros Hix Herr Hx. cbv zeta.
  destruct (extract_text_from_pdf_ok _ _ _ _ _ Hx) as (Hne & Htrim & ->).
  unfold upload_document, try_except, upload_body, bind, get_index.
  rewrite Hix, Hx, Htrim.
  apply truthy_nonempty in Hne. rewrite Hne. cbn [negb].
  rewrite get_embeddings_run.
  fold (upload_vectors env filename user_id text).
  rewrite (upsert_batches_run _ _ ix) by (assumption || reflexivity).
  unfold db_save, bind. rewrite emit_run. unfold get_db, upserted.
  cbn [st_index st_db st_trace traced].
  rewrite (batches_concat 99) by lia.
  unfold upload_trace.
  destruct (db_error (st_db st));
    unfold raise, ret, set_db, traced; cbn [st_index st_db st_trace cm_id];
    repeat rewrite <- app_assoc; reflexivity.
Qed.

(** What [build_vectors] puts in each vector. *)
Lemma build_vectors_in (env : Env) (filename : str) (user_id : Z) :
  forall ids chunks embeddings i e,
  In e (build_vectors env filename user_id i ids chunks embeddings) ->
  md_user_id (ie_metadata e) = user_id /\
  md_filename (ie_metadata e) = filename /\
  In (md_text (ie_metadata e)) chunks /\
  In (ie_id e) ids.
Proof.
  induction ids as [|id ids IH]; intros [|c chunks] [|v embeddings] i e; simpl;
    try tauto.
  intros [<-|H]; simpl; [auto|].
  destruct (IH _ _ _ _ H) as (H1 & H2 & H3 & H4). auto.
Qed.

Lemma build_vectors_ids (env : Env) (filename : str) (user_id : Z) :
  forall ids chunks embeddings i,
  List.length chunks = List.length ids ->
  List.length embeddings = List.length ids ->
  List.map ie_id (build_vectors env filename user_id i ids chunks embeddings) = ids.
Proof.
  induction ids as [|id ids IH]; intros [|c chunks] [|v embeddings] i; simpl;
    try discriminate; auto.
  intros [= H1] [= H2]. f_equal. now apply IH.
Qed.

(** An upload builds one vector per chunk, with the ids it made. *)
Lemma upload_vectors_ids (env : Env) (filename : str) (user_id : Z) (text : str) :
  List.map ie_id (upload_vectors env filename user_id text) =
  List.map (fun i => lit "doc_" ++ str_of_int user_id ++ lit "_" ++ uuid4 env i)
           (seq 0 (List.length (chunk_text_default text))).
Proof.
  unfold upload_vectors. apply build_vectors_ids; now rewrite !length_map, ?length_seq.
Qed.

Lemma upload_vectors_length (env : Env) (filename : str) (user_id : Z) (text : str) :
  List.length (upload_vectors env filename user_id text)
  = List.length (chunk_text_default text).
Proof.
  rewrite <- (length_map ie_id), upload_vectors_ids. now rewrite length_map, length_seq.
Qed.

Lemma strip_head (c : char) (l : str) :
  is_space c = false -> exists l', strip (c :: l) = c :: l'.
Proof.
  intros Hc. unfold strip, rstrip. simpl lstrip. rewrite Hc. simpl rev.
  rewrite lstrip_snoc by exact Hc. rewrite rev_app_distr. simpl. eauto.
Qed.

Lemma trimmed_head (c : char) (l : str) : strip (c :: l) = c :: l -> is_space c = false.
Proof.
  intros H. destruct (is_space c) eqn:E; [|reflexivity]. exfalso.
  apply (f_equal (@List.length char)) in H. unfold strip, rstrip in H.
  simpl lstrip in H. rewrite E in H. rewrite length_rev in H.
  pose proof (lstrip_length (rev (lstrip l))) as H1. rewrite length_rev in H1.
  pose proof (lstrip_length l). simpl in H. lia.
Qed.

(** A text that is not empty and is trimmed gives at least one chunk. *)
Lemma chunk_text_default_nonempty (text : str) :
  text <> [] -> strip text = text -> chunk_text_default text <> [].
Proof.
  intros Hne Htrim. pose proof (chunk_text_default_returns text) as H.
  unfold chunk_text in H. destruct (len text <=? default_chunk_size) eqn:E.
  - injection H as <-. discriminate.
  - apply Z.leb_gt in E. cbn [chunk_loop] in H.
    assert (E0 : (0 <? len text) = true) by (apply Z.ltb_lt; unfold default_chunk_size in E; lia).
    rewrite E0 in H.
    pose proof (chunk_end_lower text default_chunk_size 0 ltac:(unfold default_chunk_size; lia)) as He.
    set (e := chunk_end text default_chunk_size 0) in *.
    destruct text as [|c rest]; [congruence|].
    assert (Hc : is_space c = false) by (now apply trimmed_head in Htrim).
    assert (Hs : exists l', slice (c :: rest) 0 e = c :: l').
    { assert (0 <= default_chunk_size / 2) by (vm_compute; discriminate).
      rewrite slice_nonneg by lia. rewrite (Z.min_l 0) by (unfold len; lia).
      simpl skipn. rewrite Z.sub_0_r.
      destruct (Z.to_nat (Z.min e (len (c :: rest)))) as [|k] eqn:Ek.
      - unfold len in *. simpl List.length in *. lia.
      - simpl. eauto. }
    destruct Hs as [l' Hs]. rewrite Hs in H.
    destruct (strip_head c l' Hc) as [l'' Hl'']. rewrite Hl'' in H.
    cbn [truthy app] in H.
    destruct (len (c :: rest) <=? e - default_overlap).
    + injection H as <-. discriminate.
    + rewrite chunk_loop_spans in H.
      destruct (chunk_spans _ _ _ _ _); [|discriminate].
      injection H as <-. discriminate.
Qed.

Lemma batches_cons (n : nat) (v : IndexEntry) (vs : list IndexEntry) :
  exists bs, batches (List.length (v :: vs)) (S n) (v :: vs)
             = firstn (S n) (v :: vs) :: bs.
Proof. simpl. eauto. Qed.

(** The run of an upload whose extraction succeeds on an index that does
    not answer: the first batch raises, and the index and the session are
    as they were. *)
Lemma upload_document_unreachable (env : Env) (file_content : list Byte.byte)
    (filename : str) (user_id : Z) (st st1 : State) (ix : VectorIndex)
    (text msg : str) :
  st_index st = Some ix -> ix_error ix = Some msg ->
  extract_text_from_pdf env file_content st = (Ok text, st1) ->
  exists k,
    upload_document env file_content filename user_id st
    = (Ok (UploadFailed (lit "Error processing document: " ++ msg)),
       traced st ([EvExtract file_content]
                  ++ List.map EvEmbed (chunk_text_default text)
                  ++ [EvUpsert k])).
Proof.
  intros Hix Herr Hx.
  destruct (extract_text_from_pdf_ok _ _ _ _ _ Hx) as (Hne & Htrim & ->).
  pose proof (chunk_text_default_nonempty text Hne Htrim) as Hch.
  unfold upload_document, try_except, upload_body, bind, get_index.
  rewrite Hix, Hx, Htrim.
  apply truthy_nonempty in Hne. rewrite Hne. cbn [negb].
  rewrite get_embeddings_run.
  fold (upload_vectors env filename user_id text).
  pose proof (upload_vectors_length env filename user_id text) as Hl.
  destruct (upload_vectors env filename user_id text) as [|v vs] eqn:Hv.
  - destruct (chunk_text_default text); [congruence | discriminate].
  - destruct (batches_cons 99 v vs) as [bs ->].
    rewrite (upsert_batches_down _ _ _ ix msg) by (assumption || reflexivity).
    eexists. unfold ret. rewrite !traced_traced. reflexivity.
Qed.

(** What [search_documents] returns, by the index handle. *)
Lemma search_documents_fst (env : Env) (query_text : str) (user_id top_k : Z)
    (st : State) :
  fst (search_documents env query_text user_id top_k st) =
  match st_index st with
  | None => Ok []
  | Some ix =>
      match query (similarity env) ix (embed_or_zero env query_text)
                  (UserIdEq user_id) top_k with
      | Ok ms => Ok (List.map chunk_of_match ms)
      | Raise _ => Ok []
      end
  end.
Proof.
  unfold search_documents, try_except, bind, get_index.
  destruct (st_index st) as [ix|]; [|reflexivity].
  rewrite get_embeddings_run.
  change (List.map (embed_or_zero env) [query_text])
    with [embed_or_zero env query_text].
  cbv iota beta. rewrite emit_run. unfold lift.
  destruct (query _ _ _ _ _); reflexivity.
Qed.

(** The calls of [search_documents]: none without an index handle, and
    else the embedding of the query and the query of the index. *)
Lemma search_documents_snd (env : Env) (query_text : str) (user_id top_k : Z)
    (st : State) :
  snd (search_documents env query_text user_id top_k st) =
  traced st (match st_index st with
             | None => []
             | Some _ => [EvEmbed query_text; EvQuery (UserIdEq user_id) top_k]
             end).
Proof.
  unfold search_documents, try_except, bind, get_index.
  destruct (st_index st) as [ix|]; [|now rewrite traced_nil].
  rewrite get_embeddings_run.
  change (List.map (embed_or_zero env) [query_text])
    with [embed_or_zero env query_text].
  cbv iota beta. rewrite emit_run. unfold lift.
  destruct (query _ _ _ _ _); unfold ret; simpl; now rewrite traced_traced.
Qed.

(** Putting an entry of one owner, in place of none or of one of its own,
    changes nothing for the filter of another owner. *)
Lemma filter_put (e : IndexEntry) (other : Z) (l : list IndexEntry) :
  md_user_id (ie_metadata e) <> other ->
  (forall x, In x l -> ie_id x = ie_id e ->
             md_user_id (ie_metadata x) = md_user_id (ie_metadata e)) ->
  filter (satisfies (UserIdEq other)) (put e l)
  = filter (satisfies (UserIdEq other)) l.
Proof.
  intros Hne. induction l as [|y r IH]; intros Hl; simpl.
  - apply Z.eqb_neq in Hne. now rewrite Hne.
  - destruct (str_eqb (ie_id y) (ie_id e)) eqn:E.
    + apply str_eqb_eq in E. simpl.
      rewrite (Hl y (or_introl eq_refl) E).
      apply Z.eqb_neq in Hne. now rewrite Hne.
    + simpl. rewrite IH; [reflexivity|]. intros x Hx. apply Hl. now right.
Qed.

Lemma filter_put_all (owner other : Z) (vs : list IndexEntry) :
  owner <> other ->
  Forall (fun v => md_user_id (ie_metadata v) = owner) vs ->
  forall l,
  (forall x v, In x l -> In v vs -> ie_id x = ie_id v ->
               md_user_id (ie_metadata x) = owner) ->
  filter (satisfies (UserIdEq other)) (fold_left (fun l e => put e l) vs l)
  = filter (satisfies (UserIdEq other)) l.
Proof.
  intros Hne. induction 1 as [|v vs Hv _ IH]; intros l Hl; simpl; [reflexivity|].
  rewrite IH.
  - apply filter_put; [congruence|]. intros x Hx Hid. rewrite Hv.
    apply (Hl x v); auto. now left.
  - intros x w Hx Hw Hid. apply put_in in Hx as [->|Hx]; [exact Hv|].
    apply (Hl x w); auto. now right.
Qed.

End RagMoreFacts.

(** ** More properties of the service *)
Module RagExtra.
Import PyStr Chunker Effects Index Rag RagRuns Examples.
Import PyStrFacts ChunkerFacts RagFacts RagMoreFacts.

Lemma lstrip_all_space (t : str) : forallb is_space t = true -> lstrip t = [].
Proof.
  induction t as [|c r IH]; simpl; [reflexivity|].
  intros H. apply andb_true_iff in H as [Hc Hr]. rewrite Hc. auto.
Qed.

Lemma strip_all_space (t : str) : forallb is_space t = true -> strip t = [].
Proof. intros H. unfold strip. now rewrite lstrip_all_space. Qed.

Lemma pages_joined_blank (pages : list (Exc str)) :
  Forall (fun p => exists t, p = Ok t /\ forallb is_space t = true) pages ->
  forall text, forallb is_space text = true ->
  exists raw, pages_joined pages text = Ok raw /\ forallb is_space raw = true.
Proof.
  induction 1 as [|p pages (t & -> & Ht) _ IH]; intros text Htext; simpl; [eauto|].
  apply IH. destruct (truthy t); [|exact Htext].
  rewrite !forallb_app, Htext, Ht. reflexivity.
Qed.

(** X4: the text the extractor returns is never empty and carries no
    whitespace at its ends: it is the trimmed concatenation of the pages'
    texts. *)
Theorem extract_text_from_pdf_returns (env : Env) (pdf_content : list Byte.byte)
    (st st1 : State) (text : str) :
  extract_text_from_pdf env pdf_content st = (Ok text, st1) ->
  text <> [] /\ strip text = text /\
  exists pages raw,
    pdf_pages env pdf_content = Ok pages /\
    pages_joined pages [] = Ok raw /\ text = strip raw.
Proof.
  rewrite extract_text_from_pdf_run.
  destruct (pdf_pages env pdf_content) as [pages|msg]; [|discriminate].
  destruct (pages_joined pages []) as [raw|msg] eqn:Hj; [|discriminate].
  destruct (truthy (strip raw)) eqn:E; [|discriminate].
  intros [= <- <-]. repeat split.
  - now apply truthy_nonempty.
  - apply strip_idem.
  - eauto.
Qed.

Lemma extract_text_from_pdf_returns_witness :
  extract_text_from_pdf answering [] no_index
  = (Ok (lit "The capital of France is Paris."), traced no_index [EvExtract []]) /\
  lit "The capital of France is Paris." <> [] /\
  strip (lit "The capital of France is Paris.")
  = lit "The capital of France is Paris.".
Proof.
  assert (H : extract_text_from_pdf answering [] no_index
              = (Ok (lit "The capital of France is Paris."),
                 traced no_index [EvExtract []])) by reflexivity.
  split; [exact H|].
  destruct (extract_text_from_pdf_returns answering [] no_index _ _ H) as (H1 & H2 & _).
  split; assumption.
Defined.

(** X5: a document whose pages hold nothing but whitespace (or that has
    no page) is refused: the extractor raises, with the no-readable-text
    message. *)
Theorem extract_text_from_pdf_blank (env : Env) (pdf_content : list Byte.byte)
    (st : State) (pages : list (Exc str)) :
  pdf_pages env pdf_content = Ok pages ->
  Forall (fun p => exists t, p = Ok t /\ forallb is_space t = true) pages ->
  fst (extract_text_from_pdf env pdf_content st)
  = Raise (lit "Error extracting text from PDF: " ++ lit "No readable text found in PDF").
Proof.
  intros Hp Hb. rewrite extract_text_from_pdf_run, Hp.
  destruct (pages_joined_blank pages Hb [] eq_refl) as (raw & -> & Hraw).
  now rewrite (strip_all_space raw Hraw).
Qed.

Lemma extract_text_from_pdf_blank_witness :
  (pdf_pages (reading (Ok [Ok (lit "  "); Ok []])) [] = Ok [Ok (lit "  "); Ok []] /\
   Forall (fun p => exists t, p = Ok t /\ forallb is_space t = true)
          [Ok (lit "  "); Ok []]) /\
  fst (extract_text_from_pdf (reading (Ok [Ok (lit "  "); Ok []])) [] no_index)
  = Raise (lit "Error extracting text from PDF: " ++ lit "No readable text found in PDF").
Proof.
  assert (H : Forall (fun p => exists t, p = Ok t /\ forallb is_space t = true)
                     [Ok (lit "  "); Ok []])
    by (repeat constructor; eexists; split; reflexivity).
  split; [split; [reflexivity | exact H]|].
  exact (extract_text_from_pdf_blank (reading (Ok [Ok (lit "  "); Ok []])) []
           no_index [Ok (lit "  "); Ok []] eq_refl H).
Defined.

(** X6: whatever makes the extractor fail, the message it raises starts
    with the extraction prefix, and the one outside call it made is the
    read of the document. *)
Theorem extract_text_from_pdf_raises (env : Env) (pdf_content : list Byte.byte)
    (st st1 : State) (msg : str) :
  extract_text_from_pdf env pdf_content st = (Raise msg, st1) ->
  (exists e, msg = lit "Error extracting text from PDF: " ++ e) /\
  st1 = traced st [EvExtract pdf_content].
Proof.
  rewrite extract_text_from_pdf_run.
  destruct (pdf_pages env pdf_content) as [pages|e].
  - destruct (pages_joined pages []) as [raw|e].
    + destruct (truthy (strip raw)); [discriminate|].
      intros [= <- <-]. split; [eexists; reflexivity | reflexivity].
    + intros [= <- <-]. split; [eexists; reflexivity | reflexivity].
  - intros [= <- <-]. split; [eexists; reflexivity | reflexivity].
Qed.

Lemma extract_text_from_pdf_raises_witness :
  extract_text_from_pdf (reading (Raise (lit "EOF marker not found"))) [] no_index
  = (Raise (lit "Error extracting text from PDF: " ++ lit "EOF marker not found"),
     traced no_index [EvExtract []]) /\
  exists e, lit "Error extracting text from PDF: " ++ lit "EOF marker not found"
            = lit "Error extracting text from PDF: " ++ e.
Proof.
  split; [reflexivity|].
  apply (extract_text_from_pdf_raises (reading (Raise (lit "EOF marker not found")))
           [] no_index (traced no_index [EvExtract []])).
  reflexivity.
Defined.

(** X7: [get_embeddings] never raises and touches neither the index nor
    the session; it makes one embedding call per text, in the texts'
    order, and the vectors of a list are those of its parts, one after
    the other. *)
Theorem get_embeddings_calls (env : Env) (texts more : list str) (st : State) :
  exists vs ws st' st'',
    get_embeddings env texts st = (Ok vs, st') /\
    st_index st' = st_index st /\ st_db st' = st_db st /\
    st_trace st' = st_trace st ++ List.map EvEmbed texts /\
    get_embeddings env more st' = (Ok ws, st'') /\
    get_embeddings env (texts ++ more) st = (Ok (vs ++ ws), st'').
Proof.
  rewrite !get_embeddings_run. do 4 eexists. repeat split.
  - apply get_embeddings_run.
  - now rewrite traced_traced, !map_app.
Qed.

(** X8: an upload whose extraction succeeds on an index that answers
    adds only entries of the uploader: every entry of the index afterwards
    was there before, or carries the uploader's id, the file's name and
    one of the text's chunks; the id made for each chunk is in the index,
    and no id that was there is lost. This holds whether or not the
    commit that follows goes through. *)
Theorem upload_document_adds_own_entries (env : Env) (file_content : list Byte.byte)
    (filename : str) (user_id : Z) (st st1 : State) (ix : VectorIndex) (text : str) :
  st_index st = Some ix -> ix_error ix = None ->
  extract_text_from_pdf env file_content st = (Ok text, st1) ->
  exists ix',
    st_index (snd (upload_document env file_content filename user_id st)) = Some ix' /\
    (forall e, In e (ix_entries ix') ->
       In e (ix_entries ix) \/
       (md_user_id (ie_metadata e) = user_id /\
        md_filename (ie_metadata e) = filename /\
        In (md_text (ie_metadata e)) (chunk_text_default text))) /\
    (forall i, (i < List.length (chunk_text_default text))%nat ->
       In (lit "doc_" ++ str_of_int user_id ++ lit "_" ++ uuid4 env i)
          (List.map ie_id (ix_entries ix'))) /\
    (forall e, In e (ix_entries ix) -> In (ie_id e) (List.map ie_id (ix_entries ix'))).
Proof.
  intros Hix Herr Hx.
  rewrite (upload_document_indexed env file_content filename user_id st st1 ix text
             Hix Herr Hx).
  eexists. split;
    [destruct (db_error (st_db st)); reflexivity|]. cbn [ix_entries].
  repeat split.
  - intros e He. apply put_all_in in He as [He|He]; [right | now left].
    unfold upload_vectors in He. apply build_vectors_in in He. tauto.
  - intros i Hi. apply put_all_ids. left. rewrite upload_vectors_ids.
    apply in_map_iff. exists i. split; [reflexivity|]. apply in_seq. lia.
  - intros e He. apply put_all_ids. right. now apply in_map.
Qed.

Lemma upload_document_adds_own_entries_witness :
  (st_index two_owners = Some {| ix_entries := [entry "doc_1_a" long_text 1;
                                                entry "doc_2_b" (lit "secret") 2];
                                 ix_error := None |} /\
   extract_text_from_pdf answering [] two_owners
   = (Ok (lit "The capital of France is Paris."), traced two_owners [EvExtract []])) /\
  exists ix',
    st_index (snd (upload_document answering [] (lit "paris.pdf") 7 two_owners))
    = Some ix' /\
    (forall e, In e (ix_entries ix') ->
       In e [entry "doc_1_a" long_text 1; entry "doc_2_b" (lit "secret") 2] \/
       (md_user_id (ie_metadata e) = 7 /\
        md_filename (ie_metadata e) = lit "paris.pdf" /\
        In (md_text (ie_metadata e))
           (chunk_text_default (lit "The capital of France is Paris.")))).
Proof.
  split; [split; reflexivity|].
  destruct (upload_document_adds_own_entries answering [] (lit "paris.pdf") 7
              two_owners (traced two_owners [EvExtract []])
              {| ix_entries := [entry "doc_1_a" long_text 1;
                                entry "doc_2_b" (lit "secret") 2];
                 ix_error := None |}
              (lit "The capital of France is Paris.")
              eq_refl eq_refl eq_refl) as (ix' & H1 & H2 & _).
  exists ix'. split; [exact H1 | exact H2].
Defined.

(** X9: when the commit goes through as well, the upload returns the
    success dict and appends one row to the session: the row of the
    uploader, with the id the dict reports, the file's name and size,
    marked processed, holding at most the first 5000 characters of the
    text. *)
Theorem upload_document_saves_row (env : Env) (file_content : list Byte.byte)
    (filename : str) (user_id : Z) (st st1 : State) (ix : VectorIndex) (text : str) :
  st_index st = Some ix -> ix_error ix = None ->
  db_error (st_db st) = None ->
  extract_text_from_pdf env file_content st = (Ok text, st1) ->
  exists row st',
    upload_document env file_content filename user_id st
    = (Ok (UploadOk (lit "Document '" ++ filename ++ lit "' processed successfully")
                    (cm_id row)
                    (Z.of_nat (List.length (chunk_text_default text)))
                    (len text)), st') /\
    db_rows (st_db st') = db_rows (st_db st) ++ [row] /\
    db_next_id (st_db st') = cm_id row + 1 /\
    cm_id row = db_next_id (st_db st) /\
    cm_uploaded_by row = user_id /\
    cm_filename row = filename /\
    cm_file_size row = Z.of_nat (List.length file_content) /\
    cm_is_processed row = true /\
    cm_extracted_text row = slice text 0 5000 /\
    len (cm_extracted_text row) <= 5000.
Proof.
  intros Hix Herr Hdb Hx.
  rewrite (upload_document_indexed env file_content filename user_id st st1 ix text
             Hix Herr Hx), Hdb.
  exists (material_row env file_content filename user_id text (db_next_id (st_db st))).
  eexists. split; [reflexivity|].
  cbn [st_db db_rows db_next_id material_row cm_id cm_uploaded_by cm_filename
       cm_file_size cm_is_processed cm_extracted_text].
  repeat split.
  pose proof (ChunkerMore.slice_length text 0 5000) as H.
  pose proof (len_nonneg text).
  rewrite !adjust_nonneg in H by lia. lia.
Qed.

Lemma upload_document_saves_row_witness :
  (st_index (serving [] None) = Some {| ix_entries := []; ix_error := None |} /\
   db_error (st_db (serving [] None)) = None /\
   extract_text_from_pdf answering [] (serving [] None)
   = (Ok (lit "The capital of France is Paris."),
      traced (serving [] None) [EvExtract []])) /\
  exists row st',
    upload_document answering [] (lit "paris.pdf") 7 (serving [] None)
    = (Ok (UploadOk (lit "Document 'paris.pdf' processed successfully")
                    (cm_id row) 1 31), st') /\
    db_rows (st_db st') = [row] /\ cm_uploaded_by row = 7.
Proof.
  split; [repeat split; reflexivity|].
  destruct (upload_document_saves_row answering [] (lit "paris.pdf") 7
              (serving [] None) (traced (serving [] None) [EvExtract []])
              {| ix_entries := []; ix_error := None |}
              (lit "The capital of France is Paris.")
              eq_refl eq_refl eq_refl eq_refl)
    as (row & st' & H1 & H2 & _ & _ & H3 & _).
  exists row, st'. split; [exact H1 | split; [exact H2 | exact H3]].
Defined.

(** X10: a successful upload always reports at least one chunk and a
    text of at least one character. *)
Theorem upload_document_success_counts (env : Env) (file_content : list Byte.byte)
    (filename : str) (user_id : Z) (st st' : State)
    (message : str) (course_id chunks_created text_length : Z) :
  upload_document env file_content filename user_id st
  = (Ok (UploadOk message course_id chunks_created text_length), st') ->
  1 <= chunks_created /\ 1 <= text_length.
Proof.
  unfold upload_document, try_except.
  destruct (upload_body env file_content filename user_id st) as [[r|msg] st2] eqn:E;
    [|discriminate].
  intros [= -> <-].
  apply upload_body_returns in E as (text & st1 & id & Hx & [= _ _ -> ->]).
  destruct (extract_text_from_pdf_ok _ _ _ _ _ Hx) as (Hne & Htrim & _).
  pose proof (chunk_text_default_nonempty text Hne Htrim).
  unfold len. destruct (chunk_text_default text), text; simpl; try congruence; lia.
Qed.

Lemma upload_document_success_counts_witness :
  fst (upload_document answering [] (lit "paris.pdf") 7 (serving [] None))
  = Ok (UploadOk (lit "Document 'paris.pdf' processed successfully") 1 1 31) /\
  1 <= 1 /\ 1 <= 31.
Proof.
  split; [vm_compute; reflexivity|].
  apply (upload_document_success_counts answering [] (lit "paris.pdf") 7
           (serving [] None)
           (snd (upload_document answering [] (lit "paris.pdf") 7 (serving [] None)))
           (lit "Document 'paris.pdf' processed successfully") 1 1 31).
  vm_compute. reflexivity.
Defined.

(** X11: when the extractor fails, the upload reports the extractor's
    message and nothing is kept: the index and the session are as they
    were, and the read of the document is the only outside call. *)
Theorem upload_document_extraction_failure (env : Env) (file_content : list Byte.byte)
    (filename : str) (user_id : Z) (st st1 : State) (ix : VectorIndex) (e : str) :
  st_index st = Some ix ->
  extract_text_from_pdf env file_content st = (Raise e, st1) ->
  upload_document env file_content filename user_id st
  = (Ok (UploadFailed (lit "Error processing document: " ++ e)),
     traced st [EvExtract file_content]) /\
  exists cause, e = lit "Error extracting text from PDF: " ++ cause.
Proof.
  intros Hix Hx. split.
  - unfold upload_document, try_except, upload_body, bind, get_index.
    rewrite Hix, Hx. pose proof (extract_text_from_pdf_trace env file_content st) as H.
    rewrite Hx in H. simpl in H. now subst st1.
  - rewrite extract_text_from_pdf_run in Hx.
    destruct (pdf_pages env file_content) as [pages|m].
    + destruct (pages_joined pages []) as [raw|m].
      * destruct (truthy (strip raw)); [discriminate|].
        injection Hx as <- _. eexists; reflexivity.
      * injection Hx as <- _. eexists; reflexivity.
    + injection Hx as <- _. eexists; reflexivity.
Qed.

Lemma upload_document_extraction_failure_witness :
  (st_index (serving [] None) = Some {| ix_entries := []; ix_error := None |} /\
   extract_text_from_pdf (reading (Raise (lit "EOF marker not found"))) []
     (serving [] None)
   = (Raise (lit "Error extracting text from PDF: " ++ lit "EOF marker not found"),
      traced (serving [] None) [EvExtract []])) /\
  upload_document (reading (Raise (lit "EOF marker not found"))) []
    (lit "broken.pdf") 7 (serving [] None)
  = (Ok (UploadFailed (lit "Error processing document: " ++
                       (lit "Error extracting text from PDF: " ++
                        lit "EOF marker not found"))),
     traced (serving [] None) [EvExtract []]).
Proof.
  split; [split; reflexivity|].
  apply (upload_document_extraction_failure
           (reading (Raise (lit "EOF marker not found"))) [] (lit "broken.pdf") 7
           (serving [] None) (traced (serving [] None) [EvExtract []])
           {| ix_entries := []; ix_error := None |}); reflexivity.
Defined.

(** X12: when the vectors went into the index and the commit then fails,
    the upload reports the failure and the session is as it was, but the
    vectors stay in the index: the id made for the first chunk is there. *)
Theorem upload_document_commit_failure (env : Env) (file_content : list Byte.byte)
    (filename : str) (user_id : Z) (st st1 : State) (ix : VectorIndex)
    (text msg : str) :
  st_index st = Some ix -> ix_error ix = None ->
  db_error (st_db st) = Some msg ->
  extract_text_from_pdf env file_content st = (Ok text, st1) ->
  exists st' ix',
    upload_document env file_content filename user_id st
    = (Ok (UploadFailed (lit "Error processing document: " ++ msg)), st') /\
    st_db st' = st_db st /\
    st_index st' = Some ix' /\
    In (lit "doc_" ++ str_of_int user_id ++ lit "_" ++ uuid4 env 0)
       (List.map ie_id (ix_entries ix')).
Proof.
  intros Hix Herr Hdb Hx.
  rewrite (upload_document_indexed env file_content filename user_id st st1 ix text
             Hix Herr Hx), Hdb.
  do 2 eexists. repeat split. cbn [ix_entries].
  apply put_all_ids. left. rewrite upload_vectors_ids.
  destruct (extract_text_from_pdf_ok _ _ _ _ _ Hx) as (Hne & Htrim & _).
  pose proof (chunk_text_default_nonempty text Hne Htrim).
  destruct (chunk_text_default text); [congruence|]. simpl. now left.
Qed.

Lemma upload_document_commit_failure_witness :
  (st_index (serving [] (Some (lit "connection lost")))
   = Some {| ix_entries := []; ix_error := None |} /\
   db_error (st_db (serving [] (Some (lit "connection lost"))))
   = Some (lit "connection lost") /\
   extract_text_from_pdf answering [] (serving [] (Some (lit "connection lost")))
   = (Ok (lit "The capital of France is Paris."),
      traced (serving [] (Some (lit "connection lost"))) [EvExtract []])) /\
  exists st' ix',
    upload_document answering [] (lit "paris.pdf") 7
      (serving [] (Some (lit "connection lost")))
    = (Ok (UploadFailed (lit "Error processing document: " ++ lit "connection lost")),
       st') /\
    st_db st' = st_db (serving [] (Some (lit "connection lost"))) /\
    st_index st' = Some ix' /\
    In (lit "doc_" ++ str_of_int 7 ++ lit "_" ++ uuid4 answering 0)
       (List.map ie_id (ix_entries ix')).
Proof.
  split; [repeat split; reflexivity|].
  apply (upload_document_commit_failure answering [] (lit "paris.pdf") 7
           (serving [] (Some (lit "connection lost")))
           (traced (serving [] (Some (lit "connection lost"))) [EvExtract []])
           {| ix_entries := []; ix_error := None |}
           (lit "The capital of France is Paris.") (lit "connection lost"));
    reflexivity.
Defined.

(** X13: when the index does not answer, the upload reports the index's
    error after the extraction and the embeddings; the first batch is the
    last outside call, so nothing is committed, and the index and the
    session are as they were. *)
Theorem upload_document_index_down (env : Env) (file_content : list Byte.byte)
    (filename : str) (user_id : Z) (st st1 : State) (ix : VectorIndex)
    (text msg : str) :
  st_index st = Some ix -> ix_error ix = Some msg ->
  extract_text_from_pdf env file_content st = (Ok text, st1) ->
  exists st' k,
    upload_document env file_content filename user_id st
    = (Ok (UploadFailed (lit "Error processing document: " ++ msg)), st') /\
    st_index st' = st_index st /\ st_db st' = st_db st /\
    st_trace st' = st_trace st ++ [EvExtract file_content]
                   ++ List.map EvEmbed (chunk_text_default text) ++ [EvUpsert k].
Proof.
  intros Hix Herr Hx.
  destruct (upload_document_unreachable env file_content filename user_id st st1 ix
              text msg Hix Herr Hx) as [k ->].
  do 2 eexists. repeat split.
Qed.

Lemma upload_document_index_down_witness :
  (let st := {| st_index := Some {| ix_entries := [];
                                    ix_error := Some (lit "503 Service Unavailable") |};
                st_db := {| db_rows := []; db_next_id := 1; db_error := None |};
                st_trace := [] |} in
   extract_text_from_pdf answering [] st
   = (Ok (lit "The capital of France is Paris."), traced st [EvExtract []])) /\
  fst (upload_document answering [] (lit "paris.pdf") 7
         {| st_index := Some {| ix_entries := [];
                                ix_error := Some (lit "503 Service Unavailable") |};
            st_db := {| db_rows := []; db_next_id := 1; db_error := None |};
            st_trace := [] |})
  = Ok (UploadFailed (lit "Error processing document: " ++
                      lit "503 Service Unavailable")).
Proof.
  split; [reflexivity|].
  destruct (upload_document_index_down answering [] (lit "paris.pdf") 7
              {| st_index := Some {| ix_entries := [];
                                     ix_error := Some (lit "503 Service Unavailable") |};
                 st_db := {| db_rows := []; db_next_id := 1; db_error := None |};
                 st_trace := [] |}
              _ _ (lit "The capital of France is Paris.")
              (lit "503 Service Unavailable") eq_refl eq_refl eq_refl)
    as (st' & k & H & _).
  now rewrite H.
Defined.

(** X14: [search_documents] never raises and changes neither the index
    nor the session. Without an index handle it returns nothing and makes
    no outside call; with one it makes two, the embedding of the query
    and the query of the index, filtered to the owner. *)
Theorem search_documents_calls (env : Env) (query_text : str) (user_id top_k : Z)
    (st : State) :
  exists chunks st',
    search_documents env query_text user_id top_k st = (Ok chunks, st') /\
    st_index st' = st_index st /\ st_db st' = st_db st /\
    st_trace st' = st_trace st ++
                   match st_index st with
                   | None => []
                   | Some _ => [EvEmbed query_text; EvQuery (UserIdEq user_id) top_k]
                   end /\
    (st_index st = None -> chunks = []).
Proof.
  pose proof (search_documents_fst env query_text user_id top_k st) as H1.
  pose proof (search_documents_snd env query_text user_id top_k st) as H2.
  destruct (search_documents env query_text user_id top_k st) as [r st'].
  simpl in H1, H2. subst st'.
  destruct (st_index st) as [ix|] eqn:Hix.
  - destruct (query _ _ _ _ _); subst r; do 2 eexists; repeat split; auto;
      discriminate.
  - subst r. do 2 eexists. repeat split; auto.
Qed.

(** X15: [answer_question] never raises and changes neither the index nor
    the session. In its result [has_context] tells whether there are
    sources: when true, the sources are not empty and [chunks_used] is
    their number; when false, there is no source and no [chunks_used]. *)
Theorem answer_question_result (env : Env) (question : str) (user_id : Z)
    (st : State) :
  exists a st',
    answer_question env question user_id st = (Ok a, st') /\
    st_index st' = st_index st /\ st_db st' = st_db st /\
    (has_context a = true ->
     sources a <> [] /\ chunks_used a = Some (Z.of_nat (List.length (sources a)))) /\
    (has_context a = false -> sources a = [] /\ chunks_used a = None).
Proof.
  unfold answer_question, try_except, bind.
  destruct (search_documents_run env question user_id 3 st)
    as (ms & st1 & -> & Hi & Hd & _).
  destruct ms as [|m ms].
  - do 2 eexists. split; [reflexivity|]. simpl. repeat split; auto; discriminate.
  - cbn [List.map]. rewrite emit_run. unfold lift.
    destruct (generate_content env _) as [[text|msg]|msg];
      do 2 eexists; (split; [reflexivity|]); simpl;
      repeat split; auto; try discriminate.
    now rewrite !length_map.
Qed.

(** X16: the language model is called only when the search found
    matches, and then once, with the prompt built from them: the calls of
    [answer_question] are those of the search, followed by that one call
    or by none. *)
Theorem answer_question_model_calls (env : Env) (question : str) (user_id : Z)
    (st : State) :
  exists chunks st1,
    search_documents env question user_id 3 st = (Ok chunks, st1) /\
    st_trace (snd (answer_question env question user_id st))
    = st_trace st1 ++
      match chunks with
      | [] => []
      | _ :: _ => [EvGenerate (prompt_of (context_of chunks) question)]
      end.
Proof.
  unfold answer_question, try_except, bind.
  destruct (search_documents_run env question user_id 3 st)
    as (ms & st1 & -> & _).
  exists (List.map chunk_of_match ms), st1. split; [reflexivity|].
  destruct ms as [|m ms].
  - simpl. now rewrite app_nil_r.
  - cbn [List.map]. rewrite emit_run. unfold lift.
    destruct (generate_content env _) as [[text|msg]|msg]; reflexivity.
Qed.

(** X17: an upload by one owner does not change what the search of
    another owner returns, whatever the upload's outcome, as long as no
    id the upload makes is the id of another owner's entry. *)
Theorem upload_document_keeps_other_owners (env : Env)
    (file_content : list Byte.byte) (filename : str) (user_id other : Z)
    (query_text : str) (top_k : Z) (st : State) :
  user_id <> other ->
  (forall ix x i, st_index st = Some ix -> In x (ix_entries ix) ->
     ie_id x = lit "doc_" ++ str_of_int user_id ++ lit "_" ++ uuid4 env i ->
     md_user_id (ie_metadata x) = user_id) ->
  fst (search_documents env query_text other top_k
         (snd (upload_document env file_content filename user_id st)))
  = fst (search_documents env query_text other top_k st).
Proof.
  intros Hne Hids. rewrite !search_documents_fst.
  destruct (st_index st) as [ix|] eqn:Hix.
  - destruct (extract_text_from_pdf env file_content st) as [[text|e] st1] eqn:Hx.
    + destruct (ix_error ix) as [msg|] eqn:Herr.
      * destruct (upload_document_unreachable env file_content filename user_id
                    st st1 ix text msg Hix Herr Hx) as [k ->].
        simpl. now rewrite Hix.
      * rewrite (upload_document_indexed env file_content filename user_id st st1
                   ix text Hix Herr Hx).
        assert (Hf : filter (satisfies (UserIdEq other))
                       (fold_left (fun l e => put e l)
                          (upload_vectors env filename user_id text) (ix_entries ix))
                     = filter (satisfies (UserIdEq other)) (ix_entries ix)).
        { apply (filter_put_all user_id other); [exact Hne | |].
          - apply Forall_forall. intros v Hv. unfold upload_vectors in Hv.
            now apply build_vectors_in in Hv.
          - intros x v Hx' Hv Hid. apply (in_map ie_id) in Hv.
            rewrite upload_vectors_ids in Hv. apply in_map_iff in Hv as (i & Hi & _).
            apply (Hids ix x i eq_refl Hx'). congruence. }
        destruct (db_error (st_db st)); simpl; unfold query; simpl;
          rewrite Herr, Hf; reflexivity.
    + unfold upload_document, try_except, upload_body, bind, get_index.
      rewrite Hix, Hx. simpl.
      pose proof (extract_text_from_pdf_trace env file_content st) as H.
      rewrite Hx in H. simpl in H. subst st1. simpl. now rewrite Hix.
  - unfold upload_document, try_except, upload_body, bind, get_index.
    rewrite Hix. simpl. now rewrite Hix.
Qed.

Lemma upload_document_keeps_other_owners_witness :
  (7 <> 2 /\
   forall ix x i, st_index two_owners = Some ix -> In x (ix_entries ix) ->
     ie_id x = lit "doc_" ++ str_of_int 7 ++ lit "_" ++ uuid4 answering i ->
     md_user_id (ie_metadata x) = 7) /\
  fst (search_documents answering (lit "secret?") 2 3
         (snd (upload_document answering [] (lit "paris.pdf") 7 two_owners)))
  = fst (search_documents answering (lit "secret?") 2 3 two_owners).
Proof.
  assert (H : forall ix x i, st_index two_owners = Some ix -> In x (ix_entries ix) ->
                ie_id x = lit "doc_" ++ str_of_int 7 ++ lit "_" ++ uuid4 answering i ->
                md_user_id (ie_metadata x) = 7).
  { intros ix x i [= <-] [<-|[<-|[]]] Hid; vm_compute in Hid; discriminate. }
  split; [split; [discriminate | exact H]|].
  apply (upload_document_keeps_other_owners answering [] (lit "paris.pdf") 7 2
           (lit "secret?") 3 two_owners); [discriminate | exact H].
Defined.

End RagExtra.

(** ** The listing's properties *)
Module ListingExtra.
Import PyStr Chunker Effects Index Rag RagRuns Listing Examples.
Import PyStrFacts ChunkerFacts RagFacts RagMoreFacts.

(** A text of [n] characters has at most [(n + 1) / 2] words. *)
Lemma split_from_count (text : str) :
  forall word,
  (2 * List.length (split_from text word)
   <= List.length text + if truthy word then 2 else 1)%nat.
Proof.
  induction text as [|c rest IH]; intros word; simpl.
  - destruct (truthy word); simpl; lia.
  - destruct (is_space c).
    + destruct (truthy word); simpl; specialize (IH []); simpl in IH; lia.
    + specialize (IH (word ++ [c])).
      replace (truthy (word ++ [c])) with true in IH by (now destruct word).
      destruct (truthy word); lia.
Qed.

Lemma get_user_documents_run (user_id : Z) (st : State) :
  get_user_documents user_id st =
  (Ok (match db_error (st_db st) with
       | Some _ => []
       | None => List.map document_of
                   (filter (fun m => cm_uploaded_by m =? user_id) (db_rows (st_db st)))
       end), st).
Proof.
  unfold get_user_documents, try_except, query_materials, bind, get_db.
  destruct (db_error (st_db st)); reflexivity.
Qed.

(** X18: [get_user_documents] never raises and changes nothing. It lists
    the user's own documents only: every document listed is that of a row
    the user uploaded, and when the session answers every such row is
    listed; when the session raises, the list is empty. *)
Theorem get_user_documents_own (user_id : Z) (st : State) :
  exists docs,
    get_user_documents user_id st = (Ok docs, st) /\
    (forall d, In d docs ->
       exists m, In m (db_rows (st_db st)) /\ cm_uploaded_by m = user_id /\
                 d = document_of m) /\
    (db_error (st_db st) = None ->
     forall m, In m (db_rows (st_db st)) -> cm_uploaded_by m = user_id ->
               In (document_of m) docs) /\
    (db_error (st_db st) <> None -> docs = []).
Proof.
  rewrite get_user_documents_run. eexists. split; [reflexivity|].
  destruct (db_error (st_db st)) as [msg|].
  - split; [intros d []|]. split; [discriminate | reflexivity].
  - split; [|split].
    + intros d Hd. apply in_map_iff in Hd as (m & <- & Hm).
      apply filter_In in Hm as [Hm Hu]. apply Z.eqb_eq in Hu. eauto.
    + intros _ m Hm Hu. apply in_map, filter_In. split; [exact Hm|].
      now apply Z.eqb_eq.
    + congruence.
Qed.

(** The estimate [len(text.split()) // 100] against the text's length. *)
Lemma words_estimate (text : str) :
  0 <= Z.of_nat (List.length (split text)) / 100 /\
  200 * (Z.of_nat (List.length (split text)) / 100) <= len text + 1.
Proof.
  pose proof (split_from_count text []) as H. simpl in H. fold (split text) in H.
  set (w := Z.of_nat (List.length (split text))) in *.
  assert (Hw : 2 * w <= len text + 1) by (unfold len, w; lia).
  assert (0 <= w) by (unfold w; lia).
  assert (0 <= w / 100) by (apply Z.div_pos; lia).
  assert (100 * (w / 100) <= w) by (apply Z.mul_div_le; lia).
  split; lia.
Qed.

(** X19: the estimated number of chunks of a listed document is never
    negative, and two hundred times the estimate is at most the length of
    the stored text plus one; a document marked processed is listed as
    processed, any other as pending. *)
Theorem document_of_estimate (m : CourseMaterial) :
  0 <= doc_total_chunks (document_of m) /\
  200 * doc_total_chunks (document_of m) <= len (cm_extracted_text m) + 1 /\
  doc_status (document_of m)
  = (if cm_is_processed m then lit "processed" else lit "pending").
Proof.
  unfold document_of. cbn [doc_total_chunks doc_status].
  pose proof (len_nonneg (cm_extracted_text m)) as Hn.
  destruct (truthy (cm_extracted_text m)); [|repeat split; lia].
  pose proof (words_estimate (cm_extracted_text m)). repeat split; lia.
Qed.

(** X20: upload, then list: after a successful upload the uploader's list
    holds the new document, under the id the upload reported, with the
    file's name and size, as processed, and with an estimate of at most
    25 chunks, however long the text is. *)
Theorem upload_then_list (env : Env) (file_content : list Byte.byte)
    (filename : str) (user_id : Z) (st st' : State)
    (message : str) (course_id chunks_created text_length : Z) :
  upload_document env file_content filename user_id st
  = (Ok (UploadOk message course_id chunks_created text_length), st') ->
  exists d docs,
    get_user_documents user_id st' = (Ok docs, st') /\
    In d docs /\
    doc_id d = course_id /\
    doc_filename d = filename /\
    doc_file_size d = Z.of_nat (List.length file_content) /\
    doc_status d = lit "processed" /\
    0 <= doc_total_chunks d <= 25.
Proof.
  intros Hup.
  destruct (st_index st) as [ix|] eqn:Hix.
  2:{ unfold upload_document, try_except, upload_body, bind, get_index in Hup.
      rewrite Hix in Hup. discriminate. }
  destruct (extract_text_from_pdf env file_content st) as [[text|e] st1] eqn:Hx.
  2:{ unfold upload_document, try_except, upload_body, bind, get_index in Hup.
      rewrite Hix, Hx in Hup. discriminate. }
  destruct (ix_error ix) as [msg|] eqn:Herr.
  { destruct (upload_document_unreachable env file_content filename user_id st st1
                ix text msg Hix Herr Hx) as [k Hk].
    rewrite Hk in Hup. discriminate. }
  rewrite (upload_document_indexed env file_content filename user_id st st1 ix text
             Hix Herr Hx) in Hup.
  destruct (db_error (st_db st)) eqn:Hdb; [discriminate|].
  injection Hup as <- <- <- <- <-.
  set (row := material_row env file_content filename user_id text
                           (db_next_id (st_db st))).
  exists (document_of row). eexists. split; [apply get_user_documents_run|].
  cbn [st_db db_error db_rows].
  split.
  - apply in_map, filter_In. split.
    + apply in_or_app. right. now left.
    + apply Z.eqb_eq. reflexivity.
  - assert (Hb : 0 <= doc_total_chunks (document_of row) <= 25).
    { unfold document_of. cbn [doc_total_chunks].
      change (cm_extracted_text row) with (slice text 0 5000).
      destruct (truthy (slice text 0 5000)); [|lia].
      pose proof (words_estimate (slice text 0 5000)) as [H1 H2].
      pose proof (ChunkerMore.slice_length text 0 5000) as Hs.
      pose proof (len_nonneg text).
      rewrite !adjust_nonneg in Hs by lia. lia. }
    repeat split; apply Hb.
Qed.

Lemma upload_then_list_witness :
  fst (upload_document answering [] (lit "paris.pdf") 7 (serving [] None))
  = Ok (UploadOk (lit "Document 'paris.pdf' processed successfully") 1 1 31) /\
  exists d docs,
    fst (get_user_documents 7
           (snd (upload_document answering [] (lit "paris.pdf") 7 (serving [] None))))
    = Ok docs /\
    In d docs /\ doc_id d = 1 /\ doc_filename d = lit "paris.pdf".
Proof.
  split; [vm_compute; reflexivity|].
  destruct (upload_then_list answering [] (lit "paris.pdf") 7 (serving [] None)
              (snd (upload_document answering [] (lit "paris.pdf") 7 (serving [] None)))
              (lit "Document 'paris.pdf' processed successfully") 1 1 31)
    as (d & docs & H1 & H2 & H3 & H4 & _); [vm_compute; reflexivity|].
  exists d, docs. rewrite H1. auto.
Defined.

End ListingExtra.

(** ** The routes' properties *)
Module RoutesExtra.
Import PyStr Chunker Effects Index Rag RagRuns Examples.
Import PyStrFacts ChunkerFacts RagFacts RagMoreFacts.

Lemma rag_upload_document_ok (env : Env) (file_content : list Byte.byte)
    (filename : str) (user_id : Z) (st : State) :
  exists r st', Rag.upload_document env file_content filename user_id st = (Ok r, st').
Proof.
  unfold Rag.upload_document, try_except.
  destruct (upload_body env file_content filename user_id st) as [[r|msg] st'];
    unfold ret; eauto.
Qed.

Lemma answer_question_ok (env : Env) (question : str) (user_id : Z) (st : State) :
  exists a st', answer_question env question user_id st = (Ok a, st').
Proof.
  unfold answer_question, try_except, bind.
  destruct (search_documents_run env question user_id 3 st) as (ms & st1 & -> & _).
  destruct ms as [|m ms].
  - do 2 eexists. reflexivity.
  - cbn [List.map]. rewrite emit_run. unfold lift.
    destruct (generate_content env _) as [[text|msg]|msg];
      do 2 eexists; reflexivity.
Qed.

(** X21: the upload route refuses, with status 400 and before anything
    else happens, a file whose lower-cased name does not end in [.pdf], a
    file of more than 10 MiB and an empty file: the state is as it was, so
    neither the extractor nor the index has been called. *)
Theorem upload_route_rejects (fw : Routes.Framework) (env : Env) (service : Exc unit)
    (filename : str) (file_content : list Byte.byte) (user_id : Z) (st : State) :
  Routes.endswith (Routes.str_lower fw filename) (lit ".pdf") = false \/
  10 * 1024 * 1024 < Z.of_nat (List.length file_content) \/
  file_content = [] ->
  exists detail,
    Routes.upload_document fw env service filename file_content user_id st
    = (Routes.HTTPException 400 detail, st).
Proof.
  intros H. unfold Routes.upload_document.
  destruct (Routes.endswith (Routes.str_lower fw filename) (lit ".pdf")) eqn:E;
    [|cbn [negb]; eauto].
  cbn [negb].
  destruct (10 * 1024 * 1024 <? Z.of_nat (List.length file_content)) eqn:E1; [eauto|].
  apply Z.ltb_ge in E1.
  destruct H as [H|[H|H]]; [discriminate | lia |]. subst. simpl. eauto.
Qed.

Lemma upload_route_rejects_witness :
  (Routes.endswith (Routes.str_lower plain (lit "Notes.TXT")) (lit ".pdf") = false \/
   10 * 1024 * 1024 < Z.of_nat (List.length [Byte.x25]) \/
   [Byte.x25] = []) /\
  exists detail,
    Routes.upload_document plain answering (Ok tt) (lit "Notes.TXT") [Byte.x25] 7
      two_owners
    = (Routes.HTTPException 400 detail, two_owners).
Proof.
  split; [left; reflexivity|].
  exact (upload_route_rejects plain answering (Ok tt) (lit "Notes.TXT") [Byte.x25]
           7 two_owners (or_introl eq_refl)).
Defined.

(** X22: once a file passed the three checks and the service is there,
    the upload route returns the message, the document id, the number of
    chunks and the file's name when the ingestion succeeded; when it
    failed the route raises with status 500, never 400: the exception it
    raises with status 400 is caught by its own handler and wrapped. *)
Theorem upload_route_outcome (fw : Routes.Framework) (env : Env)
    (filename : str) (file_content : list Byte.byte) (user_id : Z) (st : State) :
  Routes.endswith (Routes.str_lower fw filename) (lit ".pdf") = true ->
  file_content <> [] ->
  Z.of_nat (List.length file_content) <= 10 * 1024 * 1024 ->
  match Routes.upload_document fw env (Ok tt) filename file_content user_id st with
  | (Routes.Returns body, st') =>
      exists text_length,
        Rag.upload_document env file_content filename user_id st
        = (Ok (UploadOk (Routes.up_message body) (Routes.up_course_id body)
                        (Routes.up_chunks_created body) text_length), st') /\
        Routes.up_filename body = filename
  | (Routes.HTTPException status detail, st') =>
      status = 500 /\
      exists message,
        Rag.upload_document env file_content filename user_id st
        = (Ok (UploadFailed message), st') /\
        detail = lit "Error processing document: "
                 ++ Routes.http_exception_str fw 400 message
  end.
Proof.
  intros Hpdf Hne Hsize. unfold Routes.upload_document. rewrite Hpdf. cbn [negb].
  apply Z.ltb_ge in Hsize. rewrite Hsize.
  replace (Z.of_nat (List.length file_content) =? 0) with false
    by (symmetry; apply Z.eqb_neq; destruct file_content; [congruence | simpl; lia]).
  destruct (rag_upload_document_ok env file_content filename user_id st)
    as (r & st' & ->).
  destruct r as [message course_id chunks_created text_length | message].
  - exists text_length. split; reflexivity.
  - split; [reflexivity|]. exists message. split; reflexivity.
Qed.

Lemma upload_route_outcome_witness :
  (Routes.endswith (Routes.str_lower plain (lit "Paris.PDF")) (lit ".pdf") = true /\
   [Byte.x25] <> [] /\
   Z.of_nat (List.length [Byte.x25]) <= 10 * 1024 * 1024) /\
  match Routes.upload_document plain answering (Ok tt) (lit "Paris.PDF") [Byte.x25] 7
          no_index with
  | (Routes.Returns body, st') =>
      exists text_length,
        Rag.upload_document answering [Byte.x25] (lit "Paris.PDF") 7 no_index
        = (Ok (UploadOk (Routes.up_message body) (Routes.up_course_id body)
                        (Routes.up_chunks_created body) text_length), st') /\
        Routes.up_filename body = lit "Paris.PDF"
  | (Routes.HTTPException status detail, st') =>
      status = 500 /\
      exists message,
        Rag.upload_document answering [Byte.x25] (lit "Paris.PDF") 7 no_index
        = (Ok (UploadFailed message), st') /\
        detail = lit "Error processing document: "
                 ++ Routes.http_exception_str plain 400 message
  end.
Proof.
  split; [repeat split; [discriminate | vm_compute; discriminate]|].
  apply (upload_route_outcome plain answering (lit "Paris.PDF") [Byte.x25] 7 no_index);
    [reflexivity | discriminate | vm_compute; discriminate].
Defined.

(** X23: the ask route refuses a question that is empty or all
    whitespace with status 400, before any call; any other question gets
    an answer, the one [answer_question] gives, and the route does not
    raise once the service is there. *)
Theorem ask_route_outcome (env : Env) (service : Exc unit) (question : str)
    (user_id : Z) (st : State) :
  (strip question = [] ->
   Routes.ask_question env service question user_id st
   = (Routes.HTTPException 400 (lit "Question cannot be empty"), st)) /\
  (strip question <> [] -> service = Ok tt ->
   exists a st',
     Routes.ask_question env service question user_id st = (Routes.Returns a, st') /\
     answer_question env question user_id st = (Ok a, st')).
Proof.
  unfold Routes.ask_question. split.
  - intros ->. reflexivity.
  - intros Hq ->. apply truthy_nonempty in Hq. rewrite Hq. cbn [negb].
    destruct (answer_question_ok env question user_id st) as (a & st' & ->).
    exists a, st'. destruct a. split; reflexivity.
Qed.

(** X24: the search route refuses a query that is empty or all
    whitespace with status 400, before any call. Any other query is
    searched for the caller, the index being asked for at most 10
    matches whatever [top_k] is; the route returns the query, the results
    and their number, which is at most 10. *)
Theorem search_route_outcome (env : Env) (service : Exc unit) (query_text : str)
    (top_k user_id : Z) (st : State) :
  (strip query_text = [] ->
   Routes.search_documents env service query_text top_k user_id st
   = (Routes.HTTPException 400 (lit "Search query cannot be empty"), st)) /\
  (strip query_text <> [] -> service = Ok tt ->
   exists found st',
     Routes.search_documents env service query_text top_k user_id st
     = (Routes.Returns found, st') /\
     Rag.search_documents env query_text user_id (Z.min top_k 10) st
     = (Ok (Routes.fd_results found), st') /\
     Routes.fd_query found = query_text /\
     Routes.fd_total_results found = Z.of_nat (List.length (Routes.fd_results found)) /\
     Routes.fd_total_results found <= 10 /\
     forall f k, In (EvQuery f k) (st_trace st') ->
                 In (EvQuery f k) (st_trace st) \/
                 (f = UserIdEq user_id /\ k <= 10 /\ k <= top_k)).
Proof.
  unfold Routes.search_documents. split.
  - intros ->. reflexivity.
  - intros Hq ->. apply truthy_nonempty in Hq. rewrite Hq. cbn [negb].
    pose proof (search_documents_snd env query_text user_id (Z.min top_k 10) st) as Hs.
    destruct (search_documents_run env query_text user_id (Z.min top_k 10) st)
      as (ms & st' & Hrun & _ & _ & Hms).
    rewrite Hrun in Hs |- *. simpl in Hs.
    do 2 eexists. split; [reflexivity|]. cbn [Routes.fd_results Routes.fd_query
                                               Routes.fd_total_results].
    repeat split.
    + rewrite length_map. destruct Hms as [->|(ix & _ & Hqr)]; [simpl; lia|].
      unfold query in Hqr. destruct (ix_error ix); [discriminate|].
      injection Hqr as <-. pose proof (firstn_le_length (Z.to_nat (Z.min top_k 10))
        (rank (List.map (to_match (similarity env) (embed_or_zero env query_text))
                 (filter (satisfies (UserIdEq user_id)) (ix_entries ix))))). lia.
    + intros f k Hin. subst st'. cbn [st_trace traced] in Hin.
      apply in_app_or in Hin as [Hin|Hin]; [now left|]. right.
      destruct (st_index st); [|destruct Hin].
      destruct Hin as [Hin|[Hin|[]]]; [discriminate|].
      injection Hin as <- <-. repeat split; lia.
Qed.

End RoutesExtra.

(** ** Upload, then ask *)
Module EndToEnd.
Import PyStr Chunker Effects Index Rag RagRuns Examples.
Import PyStrFacts ChunkerFacts RagFacts RagMoreFacts.

Lemma insert_desc_length (m : Match) (l : list Match) :
  List.length (insert_desc m l) = S (List.length l).
Proof.
  induction l as [|x r IH]; simpl; [reflexivity|].
  destruct (PrimFloat.leb (m_score m) (m_score x)); simpl; [now rewrite IH | reflexivity].
Qed.

(** Ranking keeps every match. *)
Lemma rank_length (l : list Match) : List.length (rank l) = List.length l.
Proof.
  induction l as [|m l IH]; simpl; [reflexivity|].
  now rewrite insert_desc_length, IH.
Qed.

Lemma put_self (e : IndexEntry) (l : list IndexEntry) : In e (put e l).
Proof.
  induction l as [|y r IH]; simpl; [now left|].
  destruct (str_eqb (ie_id y) (ie_id e)); simpl; auto.
Qed.

(** The last vector put is in the index. *)
Lemma put_all_last (vs : list IndexEntry) (v : IndexEntry) (l : list IndexEntry) :
  In v (fold_left (fun l e => put e l) (vs ++ [v]) l).
Proof. rewrite fold_left_app. simpl. apply put_self. Qed.

(** A successful upload went all the way: the index answered, the
    extractor gave a text and the commit went through. *)
Lemma upload_document_success_inv (env : Env) (file_content : list Byte.byte)
    (filename : str) (user_id : Z) (st st' : State)
    (message : str) (course_id chunks_created text_length : Z) :
  upload_document env file_content filename user_id st
  = (Ok (UploadOk message course_id chunks_created text_length), st') ->
  exists ix text,
    st_index st = Some ix /\ ix_error ix = None /\
    st_index st' = Some {| ix_entries :=
                             fold_left (fun l e => put e l)
                               (upload_vectors env filename user_id text)
                               (ix_entries ix);
                           ix_error := None |} /\
    upload_vectors env filename user_id text <> [].
Proof.
  intros Hup.
  destruct (st_index st) as [ix|] eqn:Hix.
  2:{ unfold upload_document, try_except, upload_body, bind, get_index in Hup.
      rewrite Hix in Hup. discriminate. }
  destruct (extract_text_from_pdf env file_content st) as [[text|e] st1] eqn:Hx.
  2:{ unfold upload_document, try_except, upload_body, bind, get_index in Hup.
      rewrite Hix, Hx in Hup. discriminate. }
  destruct (ix_error ix) as [msg|] eqn:Herr.
  { destruct (upload_document_unreachable env file_content filename user_id st st1
                ix text msg Hix Herr Hx) as [k Hk].
    rewrite Hk in Hup. discriminate. }
  rewrite (upload_document_indexed env file_content filename user_id st st1 ix text
             Hix Herr Hx) in Hup.
  destruct (db_error (st_db st)); [discriminate|].
  injection Hup as _ _ _ _ <-.
  exists ix, text. repeat split; [exact Herr|].
  destruct (extract_text_from_pdf_ok _ _ _ _ _ Hx) as (Hne & Htrim & _).
  pose proof (chunk_text_default_nonempty text Hne Htrim) as Hc.
  pose proof (upload_vectors_length env filename user_id text) as Hl.
  intros Hv. rewrite Hv in Hl. destruct (chunk_text_default text); [congruence | discriminate].
Qed.

(** X25: upload, then ask. After a successful upload, a question of the
    uploader always finds context: the search returns between one and
    three chunks, and, the language model answering with a text,
    [answer_question] returns that text with [has_context] true and as
    many sources as chunks. *)
Theorem ask_after_upload (env : Env) (file_content : list Byte.byte)
    (filename question : str) (user_id : Z) (st st' : State)
    (message : str) (course_id chunks_created text_length : Z) :
  upload_document env file_content filename user_id st
  = (Ok (UploadOk message course_id chunks_created text_length), st') ->
  (forall prompt, exists text, generate_content env prompt = Ok (WithText text)) ->
  exists chunks a st1 st2,
    search_documents env question user_id 3 st' = (Ok chunks, st1) /\
    (1 <= List.length chunks <= 3)%nat /\
    answer_question env question user_id st' = (Ok a, st2) /\
    has_context a = true /\
    generate_content env (prompt_of (context_of chunks) question)
    = Ok (WithText (answer a)) /\
    List.length (sources a) = List.length chunks.
Proof.
  intros Hup Hmodel.
  destruct (upload_document_success_inv _ _ _ _ _ _ _ _ _ _ Hup)
    as (ix & text & _ & _ & Hix' & Hvs).
  pose proof (search_documents_fst env question user_id 3 st') as Hf.
  rewrite Hix' in Hf. unfold query in Hf. cbn [ix_error ix_entries] in Hf.
  destruct (search_documents env question user_id 3 st') as [r st1] eqn:Hrun.
  cbn [fst] in Hf. subst r.
  remember (filter (satisfies (UserIdEq user_id))
              (fold_left (fun l e => put e l)
                 (upload_vectors env filename user_id text) (ix_entries ix)))
    as owned eqn:Howned.
  remember (firstn (Z.to_nat 3)
              (rank (List.map (to_match (similarity env) (embed_or_zero env question))
                       owned)))
    as ms eqn:Hms.
  assert (Hlen : (1 <= List.length ms <= 3)%nat).
  { rewrite Hms, length_firstn, rank_length, length_map.
    destruct (exists_last Hvs) as (vs & v & Hv).
    assert (Hin : In v owned).
    { rewrite Howned. apply filter_In. split.
      - rewrite Hv. apply put_all_last.
      - simpl. apply Z.eqb_eq.
        assert (H : In v (upload_vectors env filename user_id text))
          by (rewrite Hv; apply in_or_app; right; now left).
        unfold upload_vectors in H. now apply build_vectors_in in H. }
    change (Z.to_nat 3) with 3%nat.
    destruct owned; [destruct Hin | cbn [List.length]; lia]. }
  clear Hms.
  exists (List.map chunk_of_match ms).
  destruct (Hmodel (prompt_of (context_of (List.map chunk_of_match ms)) question))
    as [t Ht].
  exists {| answer := t;
            sources := List.map source_of (List.map chunk_of_match ms);
            has_context := true;
            chunks_used := Some (Z.of_nat (List.length (List.map chunk_of_match ms))) |}.
  exists st1.
  exists (traced st1 [EvGenerate (prompt_of (context_of (List.map chunk_of_match ms))
                                            question)]).
  split; [reflexivity|]. split; [rewrite length_map; exact Hlen|]. split.
  - unfold answer_question, try_except, bind. rewrite Hrun.
    destruct ms as [|m ms']; [simpl in Hlen; lia|].
    cbn [List.map] in *. rewrite emit_run. unfold lift. rewrite Ht. reflexivity.
  - split; [reflexivity|]. split; [exact Ht | apply length_map].
Qed.

Lemma ask_after_upload_witness :
  (fst (upload_document answering [] (lit "paris.pdf") 7 (serving [] None))
   = Ok (UploadOk (lit "Document 'paris.pdf' processed successfully") 1 1 31) /\
   forall prompt, exists text, generate_content answering prompt = Ok (WithText text)) /\
  exists chunks a st1 st2,
    search_documents answering (lit "capital?") 7 3
      (snd (upload_document answering [] (lit "paris.pdf") 7 (serving [] None)))
    = (Ok chunks, st1) /\
    (1 <= List.length chunks <= 3)%nat /\
    answer_question answering (lit "capital?") 7
      (snd (upload_document answering [] (lit "paris.pdf") 7 (serving [] None)))
    = (Ok a, st2) /\
    has_context a = true.
Proof.
  assert (Hm : forall prompt,
             exists text, generate_content answering prompt = Ok (WithText text))
    by (intros prompt; eexists; reflexivity).
  split; [split; [vm_compute; reflexivity | exact Hm]|].
  destruct (ask_after_upload answering [] (lit "paris.pdf") (lit "capital?") 7
              (serving [] None)
              (snd (upload_document answering [] (lit "paris.pdf") 7 (serving [] None)))
              (lit "Document 'paris.pdf' processed successfully") 1 1 31)
    as (chunks & a & st1 & st2 & H1 & H2 & H3 & H4 & _);
    [vm_compute; reflexivity | exact Hm |].
  exists chunks, a, st1, st2. auto.
Defined.

End EndToEnd.
